(** * A block storage engine: VirtualDisk, Inode and FileSystem

    A shallow embedding of [lib/VirtualDisk.py], [lib/Inode.py] and
    [lib/FileSystem.py].  Python integers are [Z], byte strings are
    [list byte], and every method is a state transformer over the object
    it is called on that either returns a value or raises; the state
    reached before a raise is kept, as it is in Python. *)

From Stdlib Require Import ZArith Lia.
From Stdlib Require Import Strings.Byte.
From stdpp Require Import base option list list_numbers gmap strings sorting pretty.

Local Open Scope Z_scope.

Global Instance byte_eq_dec : EqDecision byte := Byte.byte_eq_dec.

(** ** Exceptions and the method monad *)

(** [VirtualDisk] raises [ValueError] at two places; the payload keeps
    them apart. *)
Inductive value_error :=
  | OutOfRange (block_number : Z)
  | Oversized (len : Z).

Inductive exn :=
  | ValueError (why : value_error)
  | IndexError
  | ZeroDivisionError
  | FileNotFoundError (name : string)
  | IOError
  | NameError (name : string)
  | JSONDecodeError
  | LoopBudget.

Global Instance value_error_eq_dec : EqDecision value_error.
Proof. solve_decision. Defined.
Global Instance exn_eq_dec : EqDecision exn.
Proof. solve_decision. Defined.

Inductive result (A : Type) :=
  | Ok (a : A)
  | Raise (e : exn).
Global Arguments Ok {A} a.
Global Arguments Raise {A} e.

Global Instance result_eq_dec `{EqDecision A} : EqDecision (result A).
Proof. solve_decision. Defined.

Definition M (St A : Type) : Type := St → result A * St.

Definition ret {St A} (a : A) : M St A := λ s, (Ok a, s).
Definition raise {St A} (e : exn) : M St A := λ s, (Raise e, s).
Definition bind {St A B} (m : M St A) (k : A → M St B) : M St B :=
  λ s, match m s with
       | (Ok a, s') => k a s'
       | (Raise e, s') => (Raise e, s')
       end.
Definition gets {St A} (f : St → A) : M St A := λ s, (Ok (f s), s).
Definition modify {St} (f : St → St) : M St unit := λ s, (Ok tt, f s).

Notation "'do' x <- m ; k" := (bind m (λ x, k))
  (at level 10, x name, m at level 100, k at level 200,
   format "'[v' 'do'  x  <-  m ; '/' k ']'").
Notation "m ;; k" := (bind m (λ _, k))
  (at level 100, k at level 200, right associativity).

(** ** Python sequence operations *)
Module Py.

(** [range(a, b)] *)
Definition range (a b : Z) : list Z := seqZ a (b - a).

(** Position denoted by an index into a sequence of length [len]:
    negative indices count from the end, anything else out of
    [0, len) is an [IndexError]. *)
Definition index (len : nat) (i : Z) : option nat :=
  let j := if i <? 0 then i + Z.of_nat len else i in
  if (0 <=? j) && (j <? Z.of_nat len) then Some (Z.to_nat j) else None.

(** [l[i]] *)
Definition getitem {A} (l : list A) (i : Z) : result A :=
  match index (length l) i ≫= (l !!.) with
  | Some x => Ok x
  | None => Raise IndexError
  end.

(** [l[i] = x] *)
Definition setitem {A} (l : list A) (i : Z) (x : A) : result (list A) :=
  match index (length l) i with
  | Some k => Ok (<[k:=x]> l)
  | None => Raise IndexError
  end.

(** [l[:k]]; a negative [k] counts from the end. *)
Definition slice_to {A} (l : list A) (k : Z) : list A :=
  if k <? 0 then take (Z.to_nat (Z.of_nat (length l) + k)) l
  else take (Z.to_nat k) l.

(** [l[a:b]] for [0 <= a]. *)
Definition slice {A} (l : list A) (a b : Z) : list A :=
  take (Z.to_nat (b - a)) (drop (Z.to_nat a) l).

(** [l[a:a+n] = d] on a bytearray, for [0 <= a] and [0 <= n]. *)
Definition set_slice {A} (l : list A) (a n : Z) (d : list A) : list A :=
  take (Z.to_nat a) l ++ d ++ drop (Z.to_nat (a + n)) l.

(** [s.rstrip('\0')] on the bytes of a text. *)
Fixpoint rstrip_nul (l : list byte) : list byte :=
  match l with
  | [] => []
  | b :: l' =>
      match rstrip_nul l' with
      | [] => if decide (b = x00) then [] else [b]
      | r => b :: r
      end
  end.

(** A file opened in binary mode: [seek(pos)] then [read(n)]. *)
Definition file_read (f : list byte) (pos n : Z) : list byte :=
  take (Z.to_nat n) (drop (Z.to_nat pos) f).

(** [seek(pos)] then [write(data)] on a file opened ['rb+']: the bytes
    under the data are replaced, the file grows when the data runs past
    its end, and a gap before [pos] reads as zeros. *)
Fixpoint file_write_at (f : list byte) (pos : nat) (data : list byte) : list byte :=
  match pos with
  | O => data ++ drop (length data) f
  | S p =>
      match f with
      | [] => x00 :: file_write_at [] p data
      | b :: f' => b :: file_write_at f' p data
      end
  end.

Definition file_write (f : list byte) (pos : Z) (data : list byte) : list byte :=
  file_write_at f (Z.to_nat pos) data.

End Py.

(** ** lib/VirtualDisk.py *)
Module VirtualDisk.

(** The object's fields; [image] is the content of the file at
    [disk_path], which the object alone reads and writes. *)
Record t := mk {
  image : list byte;
  total_size_bytes : Z;
  block_size : Z;
  total_blocks : Z;
  bitmap_blocks : Z;
}.

Definition set_image (f : list byte) (self : t) : t :=
  mk f (total_size_bytes self) (block_size self) (total_blocks self) (bitmap_blocks self).

Definition in_range (self : t) (block_number : Z) : bool :=
  (0 <=? block_number) && (block_number <? total_blocks self).

Definition read_block (block_number : Z) : M t (list byte) :=
  λ self,
    if negb (in_range self block_number) then
      (Raise (ValueError (OutOfRange block_number)), self)
    else
      (Ok (Py.file_read (image self) (block_number * block_size self) (block_size self)), self).

Definition write_block (block_number : Z) (data : list byte) : M t unit :=
  λ self,
    if negb (in_range self block_number) then
      (Raise (ValueError (OutOfRange block_number)), self)
    else
      let len := Z.of_nat (length data) in
      let store d :=
        (Ok tt, set_image (Py.file_write (image self) (block_number * block_size self) d) self) in
      if len <? block_size self then
        store (data ++ replicate (Z.to_nat (block_size self - len)) x00)
      else if block_size self <? len then
        (Raise (ValueError (Oversized len)), self)
      else store data.

Definition initializeBitmap : M t unit :=
  do bs <- gets block_size;
  let bitmap := replicate (Z.to_nat bs) x00 in
  match Py.setitem bitmap 0 x01 with
  | Raise e => raise e
  | Ok bitmap => write_block 0 bitmap
  end.

(** [__init__]; [existing] is the content of the file at [disk_path]
    when there is one. *)
Definition init (existing : option (list byte))
    (total_size_bytes block_size_bytes : Z) : result t :=
  if decide (block_size_bytes = 0) then Raise ZeroDivisionError
  else
    let file :=
      match existing with
      | Some f => f
      | None => replicate (Z.to_nat total_size_bytes) x00
      end in
    let self := mk file total_size_bytes block_size_bytes
                  (total_size_bytes `div` block_size_bytes) 1 in
    match initializeBitmap self with
    | (Ok _, self') => Ok self'
    | (Raise e, _) => Raise e
    end.

(** The scan of [get_free_block] over [range(1, total_blocks)]. *)
Fixpoint first_free (bitmap : list byte) (candidates : list Z) : result (option Z) :=
  match candidates with
  | [] => Ok None
  | blockNum :: rest =>
      match Py.getitem bitmap blockNum with
      | Raise e => Raise e
      | Ok b => if decide (b = x00) then Ok (Some blockNum) else first_free bitmap rest
      end
  end.

Definition get_free_block : M t (option Z) :=
  do bitmap <- read_block 0;
  do total <- gets total_blocks;
  match first_free bitmap (Py.range 1 total) with
  | Raise e => raise e
  | Ok r => ret r
  end.

Definition mark_block_free (block_number : Z) : M t unit :=
  do bitmap <- read_block 0;
  match Py.setitem bitmap block_number x00 with
  | Raise e => raise e
  | Ok bitmap => write_block 0 bitmap
  end.

Definition mark_block_used (block_number : Z) : M t unit :=
  do bitmap <- read_block 0;
  match Py.setitem bitmap block_number x01 with
  | Raise e => raise e
  | Ok bitmap => write_block 0 bitmap
  end.

Definition is_block_used (block_number : Z) : M t bool :=
  do bitmap <- read_block 0;
  match Py.getitem bitmap block_number with
  | Raise e => raise e
  | Ok b => ret (bool_decide (b = x01))
  end.

Definition delete_block (block_number : Z) : M t unit :=
  λ self,
    if negb (in_range self block_number) then
      (Raise (ValueError (OutOfRange block_number)), self)
    else mark_block_free block_number self.

Definition get_total_blocks : M t Z := gets total_blocks.
Definition get_block_size : M t Z := gets block_size.

(** *** Vocabulary for the statements below *)

(** The bytes of block [n] in the image, and the bitmap. *)
Definition block (self : t) (n : Z) : list byte :=
  Py.file_read (image self) (n * block_size self) (block_size self).
Definition bitmap (self : t) : list byte := block self 0.

(** The image after [data], one block long, is stored as block [n]. *)
Definition stored (n : Z) (data : list byte) (self : t) : t :=
  set_image (Py.file_write (image self) (n * block_size self) data) self.

(** Blocks have a positive size, there is a block 0, and every block
    of the device lies inside the image: the state of an object that
    [__init__] returned over an image it created. *)
Definition wf (self : t) : Prop :=
  0 < block_size self ∧
  1 ≤ total_blocks self ∧
  total_blocks self * block_size self ≤ Z.of_nat (length (image self)).

(** The free blocks [get_free_block] can hand out. *)
Definition free (self : t) (b : Z) : Prop :=
  bitmap self !! Z.to_nat b = Some x00.
Global Instance free_dec self b : Decision (free self b).
Proof. unfold free. apply _. Defined.
Global Instance wf_dec self : Decision (wf self).
Proof. unfold wf. apply _. Defined.
Definition free_list (self : t) : list Z :=
  filter (free self) (Py.range 1 (total_blocks self)).
Definition used (self : t) (b : Z) : Prop :=
  bitmap self !! Z.to_nat b = Some x01.

(** The fields that no method assigns after [__init__]. *)
Definition geometry (self : t) : Z * Z * Z * Z :=
  (total_size_bytes self, block_size self, total_blocks self, bitmap_blocks self).

End VirtualDisk.


(** ** The interpreter's side: JSON values, [json] and set iteration *)

#[warnings="-register-all"]
Inductive json :=
  | JNull
  | JBool (b : bool)
  | JInt (z : Z)
  | JFloat (repr : string)
  | JStr (s : string)
  | JList (l : list json)
  | JObj (fields : list (string * json)).

(** What the code takes from the standard library and the interpreter:
    [json_dumps v] is [json.dumps(v).encode()]; [json_loads b] is
    [json.loads] applied to the decoded text [b], [None] when decoding or
    parsing raises; [set_range a b] is the order in which a [for] loop
    visits [set(range(a, b))], which the language leaves open. *)
Class Runtime := {
  json_dumps : json → list byte;
  json_loads : list byte → option json;
  set_range : Z → Z → list Z;
  set_range_perm a b : set_range a b ≡ₚ Py.range a b;
}.

(** A [dict] with [str] keys, in insertion order. *)
Module Dict.
Section dict.
Context {V : Type}.

Fixpoint get (d : list (string * V)) (k : string) : option V :=
  match d with
  | [] => None
  | (k', v) :: d' => if decide (k' = k) then Some v else get d' k
  end.

Definition mem (d : list (string * V)) (k : string) : bool :=
  bool_decide (is_Some (get d k)).

(** [d[k] = v] *)
Fixpoint set (d : list (string * V)) (k : string) (v : V) : list (string * V) :=
  match d with
  | [] => [(k, v)]
  | (k', v') :: d' => if decide (k' = k) then (k, v) :: d' else (k', v') :: set d' k v
  end.

(** [del d[k]] *)
Fixpoint del (d : list (string * V)) (k : string) : list (string * V) :=
  match d with
  | [] => []
  | (k', v') :: d' => if decide (k' = k) then d' else (k', v') :: del d' k
  end.
End dict.
End Dict.

(** ** lib/Inode.py *)
Module Inode.

Record t := mk {
  name : string;
  size : Z;
  blocks : list Z;
  created_time : json;
  type : string;
}.

(** [__init__]; [now] is the value of [time.time()]. *)
Definition init (name : string) (size : Z) (now : json) : t :=
  mk name size [] now "file".

Definition to_dict (self : t) : json :=
  JObj [("name", JStr (name self));
        ("size", JInt (size self));
        ("blocks", JList (JInt <$> blocks self));
        ("created_time", created_time self);
        ("type", JStr (type self))]%string.

Definition as_int (v : json) : option Z :=
  match v with JInt z => Some z | _ => None end.
Definition as_str (v : json) : option string :=
  match v with JStr s => Some s | _ => None end.

(** [from_dict]; [None] stands for the [KeyError] or [TypeError] of a
    record that lacks a field.  Fields are read at the types the rest
    of the code uses them at. *)
Definition from_dict (data : json) : option t :=
  match data with
  | JObj fields =>
      name ← Dict.get fields "name" ≫= as_str;
      size ← Dict.get fields "size" ≫= as_int;
      blocks ← Dict.get fields "blocks" ≫=
                 (λ v, match v with JList l => mapM as_int l | _ => None end);
      created_time ← Dict.get fields "created_time";
      type ← Dict.get fields "type" ≫= as_str;
      Some (mk name size blocks created_time type)
  | _ => None
  end.

Definition set_blocks (b : list Z) (self : t) : t :=
  mk (name self) (size self) b (created_time self) (type self).
Definition set_size (n : Z) (self : t) : t :=
  mk (name self) n (blocks self) (created_time self) (type self).

End Inode.

(** ** lib/FileSystem.py *)
Module FileSystem.

Record t := mk {
  disk : VirtualDisk.t;
  inode_table_block : Z;
  inodes : list (string * Inode.t);
}.

Definition RESERVED_BLOCKS : list (Z * string) :=
  [(0, "bitmap"); (1, "inode_table")]%string.
Definition FIRST_DATA_BLOCK : Z := foldr Z.max 0 (fst <$> RESERVED_BLOCKS) + 1.

Definition set_disk (d : VirtualDisk.t) (self : t) : t :=
  mk d (inode_table_block self) (inodes self).
Definition set_inodes (i : list (string * Inode.t)) (self : t) : t :=
  mk (disk self) (inode_table_block self) i.

(** A call [self.disk.m(...)]. *)
Definition on_disk {A} (m : M VirtualDisk.t A) : M t A :=
  λ self, let '(r, d) := m (disk self) in (r, set_disk d self).

Section methods.
Context `{Runtime}.

Definition save_inode_table : M t unit :=
  do table <- gets inodes;
  let inode_dict := JObj (prod_map id Inode.to_dict <$> table) in
  let json_bytes := json_dumps inode_dict in
  do block <- gets inode_table_block;
  on_disk (VirtualDisk.write_block block json_bytes) ;;
  on_disk (VirtualDisk.mark_block_used 1).

(** The comprehension over [inode_data.items()]. *)
Definition table_of_json (inode_data : json) : option (list (string * Inode.t)) :=
  match inode_data with
  | JObj fields => mapM (λ '(name, data), pair name <$> Inode.from_dict data) fields
  | _ => None
  end.

Definition load_inode_table : M t unit :=
  λ self,
    let attempt :=
      do block <- gets inode_table_block;
      do data <- on_disk (VirtualDisk.read_block block);
      let json_str := Py.rstrip_nul data in
      if decide (json_str = []) then ret tt
      else
        match json_loads json_str ≫= table_of_json with
        | Some table => modify (set_inodes table)
        | None => raise JSONDecodeError
        end in
    match attempt self with
    | (Raise _, self') => save_inode_table self'
    | done => done
    end.

(** [__init__]; [existing] is the content of the file at [disk_path]
    when there is one. *)
Definition init (existing : option (list byte)) : result t :=
  match VirtualDisk.init existing (1024 * 1024) 4096 with
  | Raise e => Raise e
  | Ok d =>
      match load_inode_table (mk d 1 []) with
      | (Ok _, self) => Ok self
      | (Raise e, _) => Raise e
      end
  end.

(** [create_file]; [now] is the value [time.time()] gives the new
    inode. *)
Definition create_file (name : string) (now : json) : M t bool :=
  do table <- gets inodes;
  if Dict.mem table name then ret false
  else
    modify (set_inodes (Dict.set table name (Inode.init name 0 now))) ;;
    save_inode_table ;;
    ret true.

(** The loop of [read_file]. *)
Fixpoint read_blocks (inode_size : Z) (blocks : list Z) (data : list byte)
    : M t (list byte) :=
  match blocks with
  | [] => ret data
  | physicalBlock :: rest =>
      do block_data <- on_disk (VirtualDisk.read_block physicalBlock);
      do block_size <- on_disk VirtualDisk.get_block_size;
      let len := Z.of_nat (length data) in
      if inode_size <? len + block_size then
        let remaining := inode_size - len in
        read_blocks inode_size rest (data ++ Py.slice_to block_data remaining)
      else
        read_blocks inode_size rest (data ++ block_data)
  end.

Definition read_file (name : string) : M t (option (list byte)) :=
  do table <- gets inodes;
  match Dict.get table name with
  | None => ret None
  | Some inode =>
      if decide (Inode.blocks inode = []) then ret (Some [])
      else
        do data <- read_blocks (Inode.size inode) (Inode.blocks inode) [];
        ret (Some data)
  end.

Fixpoint free_blocks (blocks : list Z) : M t unit :=
  match blocks with
  | [] => ret tt
  | block :: rest => on_disk (VirtualDisk.mark_block_free block) ;; free_blocks rest
  end.

Definition delete_file (name : string) : M t bool :=
  do table <- gets inodes;
  match Dict.get table name with
  | None => ret false
  | Some inode =>
      free_blocks (Inode.blocks inode) ;;
      do table <- gets inodes;
      modify (set_inodes (Dict.del table name)) ;;
      save_inode_table ;;
      ret true
  end.

Definition list_files : M t (list (string * Z * list Z * json)) :=
  do table <- gets inodes;
  ret ((λ '(name, inode),
         (name, Inode.size inode, Inode.blocks inode, Inode.created_time inode))
       <$> table).

Definition _get_inode (name : string) : M t Inode.t :=
  do table <- gets inodes;
  match Dict.get table name with
  | None => raise (FileNotFoundError name)
  | Some inode => ret inode
  end.

(** The set is returned in the order the caller's loop visits it. *)
Definition _calculate_blocks_needed (offset data_length : Z) : M t (list Z) :=
  do block_size <- gets (VirtualDisk.block_size ∘ disk);
  if decide (block_size = 0) then raise ZeroDivisionError
  else
    let start_block := offset `div` block_size in
    let end_block := (offset + data_length + block_size - 1) `div` block_size in
    ret (set_range start_block (end_block + 1)).

Definition _allocate_new_block : M t (option Z) :=
  do block <- on_disk VirtualDisk.get_free_block;
  match block with
  | None => raise (NameError "DiskFullError")
  | Some b => ret (Some b)
  end.

(** The loop of [_ensure_blocks_allocated]. *)
Fixpoint allocate_missing (blocks_needed : list Z) (block_mapping : gmap Z Z)
    : M t (gmap Z Z) :=
  match blocks_needed with
  | [] => ret block_mapping
  | logical_block :: rest =>
      match block_mapping !! logical_block with
      | Some _ => allocate_missing rest block_mapping
      | None =>
          do new_block <- _allocate_new_block;
          match new_block with
          | None => raise IOError
          | Some new_block =>
              on_disk (VirtualDisk.mark_block_used new_block) ;;
              allocate_missing rest (<[logical_block:=new_block]> block_mapping)
          end
      end
  end.

Definition _ensure_blocks_allocated (inode : Inode.t) (blocks_needed : list Z)
    : M t (gmap Z Z) :=
  let block_mapping : gmap Z Z := map_seqZ 0 (Inode.blocks inode) in
  allocate_missing blocks_needed block_mapping.

(** The [while] loop of [_write_data_to_blocks].  Every turn writes
    at least one byte when the block size is positive, so
    [length data] turns are enough; [fuel] counts them. *)
Fixpoint write_loop (fuel : nat) (data : list byte) (block_mapping : gmap Z Z)
    (block_size current_offset data_offset : Z) : M t unit :=
  let len := Z.of_nat (length data) in
  if negb (data_offset <? len) then ret tt
  else
    match fuel with
    | O => raise LoopBudget
    | S fuel =>
        if decide (block_size = 0) then raise ZeroDivisionError
        else
          let logical_block := current_offset `div` block_size in
          let block_offset := current_offset `mod` block_size in
          match block_mapping !! logical_block with
          | None => ret tt
          | Some physical_block =>
              do current_block <- on_disk (VirtualDisk.read_block physical_block);
              let space_in_block := block_size - block_offset in
              let data_remaining := len - data_offset in
              let bytes_to_write := space_in_block `min` data_remaining in
              let current_block :=
                Py.set_slice current_block block_offset bytes_to_write
                  (Py.slice data data_offset (data_offset + bytes_to_write)) in
              on_disk (VirtualDisk.write_block physical_block current_block) ;;
              write_loop fuel data block_mapping block_size
                (current_offset + bytes_to_write) (data_offset + bytes_to_write)
          end
    end.

Definition _write_data_to_blocks (data : list byte) (offset : Z)
    (block_mapping : gmap Z Z) : M t unit :=
  do block_size <- gets (VirtualDisk.block_size ∘ disk);
  write_loop (length data) data block_mapping block_size offset 0.

(** [_write_block_portion], for [0 <= block_offset]. *)
Definition _write_block_portion (physical_block : Z) (data : list byte)
    (block_offset : Z) : M t unit :=
  do current_block <- on_disk (VirtualDisk.read_block physical_block);
  let current_block :=
    Py.set_slice current_block block_offset (Z.of_nat (length data)) data in
  on_disk (VirtualDisk.write_block physical_block current_block).

(** [sorted(block_mapping.keys())] *)
Definition sorted_keys (block_mapping : gmap Z Z) : list Z :=
  merge_sort Z.le (elements (dom block_mapping)).

(** [_update_inode]; the inode object is the one the table holds
    under [name], and it is updated there. *)
(** The two assignments of [_update_inode]. *)
Definition updated_inode (offset data_length : Z) (block_mapping : gmap Z Z)
    (inode : Inode.t) : Inode.t :=
  let blocks := (λ i, block_mapping !!! i) <$> sorted_keys block_mapping in
  let inode := Inode.set_blocks blocks inode in
  Inode.set_size (Inode.size inode `max` (offset + data_length)) inode.

Definition _update_inode (name : string) (offset data_length : Z)
    (block_mapping : gmap Z Z) : M t unit :=
  do table <- gets inodes;
  match Dict.get table name with
  | None => ret tt
  | Some inode =>
      modify (set_inodes
                (Dict.set table name (updated_inode offset data_length block_mapping inode)))
  end ;;
  save_inode_table.

(** The [try] block of [write_file]. *)
Definition write_file_try (name : string) (data : list byte) (offset : Z) : M t bool :=
  do inode <- _get_inode name;
  do blocks_needed <- _calculate_blocks_needed offset (Z.of_nat (length data));
  do block_mapping <- _ensure_blocks_allocated inode blocks_needed;
  _write_data_to_blocks data offset block_mapping ;;
  _update_inode name offset (Z.of_nat (length data)) block_mapping ;;
  ret true.

Definition write_file (name : string) (data : list byte) (offset : Z) : M t bool :=
  λ self,
    match write_file_try name data offset self with
    | (Raise (FileNotFoundError _), self') => (Ok false, self')
    | done => done
    end.

(** *** Vocabulary for the statements below *)

(** The value [save_inode_table] serialises. *)
Definition table_json (table : list (string * Inode.t)) : json :=
  JObj (prod_map id Inode.to_dict <$> table).

(** The table in its serialised form is longer than a block. *)
Definition table_overflows (self : t) : Prop :=
  VirtualDisk.block_size (disk self)
    < Z.of_nat (length (json_dumps (table_json (inodes self)))).
Global Instance table_overflows_dec self : Decision (table_overflows self).
Proof. unfold table_overflows. apply _. Defined.

End methods.

(** The device is well formed and the table lives in block 1, as
    [__init__] sets it up. *)
Definition wf (self : t) : Prop :=
  VirtualDisk.wf (disk self) ∧ inode_table_block self = 1.

(** The state [save_inode_table] leaves when [data] is what block 1
    then holds. *)
Definition after_save (data : list byte) (self : t) : t :=
  let d1 := VirtualDisk.stored 1 data (disk self) in
  set_disk (VirtualDisk.stored 0 (<[1%nat:=x01]> (VirtualDisk.bitmap d1)) d1) self.

Global Instance wf_dec self : Decision (wf self).
Proof. unfold wf. apply _. Defined.

(** [self'] differs from [self] in the image at most. *)
Definition image_only (self self' : t) : Prop :=
  VirtualDisk.geometry (disk self') = VirtualDisk.geometry (disk self) ∧
  inode_table_block self' = inode_table_block self ∧
  inodes self' = inodes self.

(** What the loop of [_write_data_to_blocks] leaves, from the [j]-th
    piece of [nB] bytes on, for a write at offset 0: each block that the
    mapping gives to a piece begins with that piece, and no other block
    of the device has changed. *)
Definition pieces_written (data : list byte) (m : gmap Z Z) (j nB : nat)
    (self self' : t) : Prop :=
  VirtualDisk.wf (disk self') ∧ image_only self self' ∧
  (∀ n, VirtualDisk.in_range (disk self) n = true →
        (∀ i, (j ≤ i)%nat → (i * nB < length data)%nat → m !! Z.of_nat i ≠ Some n) →
        VirtualDisk.block (disk self') n = VirtualDisk.block (disk self) n) ∧
  (∀ i p, (j ≤ i)%nat → (i * nB < length data)%nat → m !! Z.of_nat i = Some p →
          take (length (take nB (drop (i * nB) data))) (VirtualDisk.block (disk self') p)
          = take nB (drop (i * nB) data)).

(** The state after block [b] is marked used. *)
Definition marked (b : Z) (self : t) : t :=
  set_disk (VirtualDisk.stored 0 (<[Z.to_nat b:=x01]> (VirtualDisk.bitmap (disk self)))
              (disk self)) self.

(** The logical blocks of a write that the inode's block list does
    not cover yet. *)
Definition missing (inode : Inode.t) (block_size offset data_length : Z) : list Z :=
  let start_block := offset `div` block_size in
  let end_block := (offset + data_length + block_size - 1) `div` block_size in
  filter (λ i, ¬ (0 ≤ i < Z.of_nat (length (Inode.blocks inode))))
         (Py.range start_block (end_block + 1)).

End FileSystem.

(** ** A runtime to run the model on

    [dumps] renders a value the way [json.dumps] does with its default
    separators and [ensure_ascii]; a character of a string is a code point
    below 256.  The loader accepts no text: the runs below start on a
    blank image, where block 1 holds no text and the loader is not
    consulted.  Sets of the ranges used below are visited in ascending
    order. *)
Module CPython.

Definition quote : string := String (Ascii.ascii_of_nat 34) EmptyString.
Definition backslash : string := String (Ascii.ascii_of_nat 92) EmptyString.

Definition hex_digit (n : N) : string :=
  String (Ascii.ascii_of_N (if (n <? 10)%N then 48 + n else 87 + n)) EmptyString.

Definition escape_char (c : Ascii.ascii) : string :=
  let n := Ascii.N_of_ascii c in
  if (n =? 34)%N then backslash +:+ quote
  else if (n =? 92)%N then backslash +:+ backslash
  else if (n =? 10)%N then backslash +:+ "n"
  else if (n =? 13)%N then backslash +:+ "r"
  else if (n =? 9)%N then backslash +:+ "t"
  else if (n =? 12)%N then backslash +:+ "f"
  else if (n =? 8)%N then backslash +:+ "b"
  else if ((32 <=? n) && (n <=? 126))%N then String c EmptyString
  else backslash +:+ "u00" +:+ hex_digit (n / 16) +:+ hex_digit (n mod 16).

Fixpoint escape (s : string) : string :=
  match s with
  | EmptyString => EmptyString
  | String c s' => escape_char c +:+ escape s'
  end.

Definition str (s : string) : string := quote +:+ escape s +:+ quote.

Fixpoint join (sep : string) (l : list string) : string :=
  match l with
  | [] => EmptyString
  | [x] => x
  | x :: l' => x +:+ sep +:+ join sep l'
  end.

Fixpoint dumps (v : json) : string :=
  match v with
  | JNull => "null"
  | JBool b => if b then "true" else "false"
  | JInt z => pretty z
  | JFloat repr => repr
  | JStr s => str s
  | JList l =>
      "[" +:+ join ", " ((fix each l := match l with
                                       | [] => []
                                       | x :: l' => dumps x :: each l'
                                       end) l) +:+ "]"
  | JObj fields =>
      "{" +:+ join ", " ((fix each fs := match fs with
                                        | [] => []
                                        | (k, x) :: fs' => (str k +:+ ": " +:+ dumps x) :: each fs'
                                        end) fields) +:+ "}"
  end.

#[export] Instance runtime : Runtime := {|
  json_dumps v := String.list_byte_of_string (dumps v);
  json_loads _ := None;
  set_range := Py.range;
  set_range_perm a b := reflexivity (Py.range a b);
|}.

(** *** Sample runs *)

Definition now : json := JFloat "1730000000.5".

Definition no_disk : VirtualDisk.t := VirtualDisk.mk [] 0 0 0 0.

(** The device and the engine constructed where no image exists. *)
Definition blank_disk : VirtualDisk.t :=
  match VirtualDisk.init None (1024 * 1024) 4096 with
  | Ok d => d
  | Raise _ => no_disk
  end.
Definition blank : FileSystem.t :=
  match FileSystem.init None with
  | Ok s => s
  | Raise _ => FileSystem.mk no_disk 0 []
  end.

(** The state a call leaves. *)
Definition after {St A} (m : M St A) (s : St) : St := snd (m s).

(** The inode [create_file] makes. *)
Definition fresh_inode (name : string) : Inode.t := Inode.init name 0 now.

(** A full disk: one empty file, and every data block marked used
    through the device, as after writes that took them all. *)
Definition full : FileSystem.t :=
  foldl (λ s b, after (FileSystem.on_disk (VirtualDisk.mark_block_used b)) s)
        (after (FileSystem.create_file "a.txt" now) blank)
        (Py.range 2 256).

(** One file, created and then written with one byte at [offset]. *)
Definition created : FileSystem.t := after (FileSystem.create_file "a.txt" now) blank.
Definition written (offset : Z) : FileSystem.t :=
  after (FileSystem.write_file "a.txt" [x41] offset) created.

(** Two blocks and a part of a third. *)
Definition sample_data : list byte := replicate (Z.to_nat 9000) "A"%byte.

(** A name of [n] letters. *)
Definition long_name (n : nat) : string :=
  String.string_of_list_byte (replicate n "a"%byte).

End CPython.


(** * Properties *)

(** ** The method monad *)
Section monad_lemmas.
Context {St A B : Type}.
Implicit Types (m : M St A) (k : A → M St B).

Lemma bind_ok m k s a s1 : m s = (Ok a, s1) → bind m k s = k a s1.
Proof. intros Hm. unfold bind. by rewrite Hm. Qed.

Lemma bind_raise m k s e s1 : m s = (Raise e, s1) → bind m k s = (Raise e, s1).
Proof. intros Hm. unfold bind. by rewrite Hm. Qed.

Lemma bind_gets (f : St → A) k s : bind (gets f) k s = k (f s) s.
Proof. done. Qed.

Lemma bind_ret (a : A) k s : bind (ret a) k s = k a s.
Proof. done. Qed.

Lemma bind_modify (f : St → St) (k : unit → M St B) s :
  bind (modify f) k s = k tt (f s).
Proof. done. Qed.

Lemma run_eq m s a : fst (m s) = Ok a → m s = (Ok a, snd (m s)).
Proof. destruct (m s) as [r s']. simpl. by intros ->. Qed.

Lemma bind_inv m k s r s' :
  bind m k s = (r, s') →
  (∃ a s1, m s = (Ok a, s1) ∧ k a s1 = (r, s')) ∨
  (∃ e, m s = (Raise e, s') ∧ r = Raise e).
Proof.
  unfold bind. destruct (m s) as [[a|e] s1].
  - intros Hk. left. eauto.
  - intros [= <- <-]. right. eauto.
Qed.

Lemma bind_Ok_inv m k s b s' :
  bind m k s = (Ok b, s') → ∃ a s1, m s = (Ok a, s1) ∧ k a s1 = (Ok b, s').
Proof. intros [?|(e & _ & ?)]%bind_inv; [done|discriminate]. Qed.
End monad_lemmas.

(** ** Files and blocks *)
Section file_lemmas.
Implicit Types f data : list byte.

Lemma lookup_file_write_at f pos data i :
  (pos + length data ≤ length f)%nat →
  Py.file_write_at f pos data !! i =
    if decide (i < pos)%nat then f !! i
    else if decide (i < pos + length data)%nat then data !! (i - pos)%nat
    else f !! i.
Proof.
  revert f i. induction pos as [|pos IH]; intros f i Hlen; simpl.
  - rewrite Nat.sub_0_r.
    destruct (decide (i < 0)%nat); [lia|].
    destruct (decide (i < length data)%nat).
    + by rewrite lookup_app_l by lia.
    + rewrite lookup_app_r, lookup_drop by lia. f_equal. lia.
  - destruct f as [|b f]; simpl in Hlen; [lia|].
    destruct i as [|i]; simpl; [done|].
    rewrite IH by lia. repeat case_decide; try lia; done.
Qed.

Lemma length_file_write_at f pos data :
  (pos + length data ≤ length f)%nat →
  length (Py.file_write_at f pos data) = length f.
Proof.
  revert f. induction pos as [|pos IH]; intros f Hlen; simpl.
  - rewrite length_app, length_drop. lia.
  - destruct f as [|b f]; simpl in *; [lia|]. by rewrite IH by lia.
Qed.
End file_lemmas.

Module VirtualDiskFacts.
Import VirtualDisk.

Lemma in_range_spec d n :
  in_range d n = true ↔ 0 ≤ n < total_blocks d.
Proof. unfold in_range. rewrite andb_true_iff, Z.leb_le, Z.ltb_lt. done. Qed.

Lemma read_block_in d n :
  in_range d n = true → read_block n d = (Ok (block d n), d).
Proof. intros Hr. unfold read_block. by rewrite Hr. Qed.

Lemma read_block_out d n :
  in_range d n = false →
  read_block n d = (Raise (ValueError (OutOfRange n)), d).
Proof. intros Hr. unfold read_block. by rewrite Hr. Qed.

Lemma block_inside d n :
  wf d → in_range d n = true →
  0 ≤ n * block_size d ∧
  n * block_size d + block_size d ≤ Z.of_nat (length (image d)).
Proof.
  intros (HB & Ht & Himg) Hr%in_range_spec. split; [nia|].
  assert ((n + 1) * block_size d ≤ total_blocks d * block_size d) by nia.
  lia.
Qed.

Lemma blocks_apart d n m :
  wf d → n < m →
  n * block_size d + block_size d ≤ m * block_size d.
Proof. intros (HB & _) Hlt. nia. Qed.

Lemma length_block d n :
  wf d → in_range d n = true → length (block d n) = Z.to_nat (block_size d).
Proof.
  intros Hwf Hr. pose proof (block_inside d n Hwf Hr). destruct Hwf.
  unfold block, Py.file_read. rewrite length_take, length_drop. lia.
Qed.

Lemma lookup_block d n i :
  (i < Z.to_nat (block_size d))%nat →
  block d n !! i = image d !! (Z.to_nat (n * block_size d) + i)%nat.
Proof.
  intros Hi. unfold block, Py.file_read.
  by rewrite lookup_take_lt, lookup_drop by done.
Qed.

Lemma lookup_block_ge d n i :
  (Z.to_nat (block_size d) ≤ i)%nat → block d n !! i = None.
Proof. intros Hi. unfold block, Py.file_read. by rewrite lookup_take_ge. Qed.

Section stored.
Context (d : t) (n : Z) (data : list byte).
Hypothesis Hwf : wf d.
Hypothesis Hn : in_range d n = true.
Hypothesis Hlen : length data = Z.to_nat (block_size d).

Lemma stored_fits :
  (Z.to_nat (n * block_size d) + length data ≤ length (image d))%nat.
Proof. pose proof (block_inside d n Hwf Hn). destruct Hwf. lia. Qed.

Lemma stored_wf : wf (stored n data d).
Proof.
  destruct Hwf as (HB & Ht & Himg). split; [done|]. split; [done|]. simpl.
  unfold Py.file_write. by rewrite length_file_write_at by apply stored_fits.
Qed.

Lemma block_stored_eq : block (stored n data d) n = data.
Proof.
  pose proof stored_fits as Hfit. apply list_eq; intros i.
  destruct (decide (i < Z.to_nat (block_size d))%nat) as [Hi|Hi].
  - rewrite lookup_block by done. simpl. unfold Py.file_write.
    rewrite lookup_file_write_at by done.
    repeat case_decide; try lia. f_equal. lia.
  - rewrite lookup_block_ge by (simpl; lia).
    symmetry. apply lookup_ge_None_2. lia.
Qed.

Lemma block_stored_ne m :
  in_range d m = true → m ≠ n → block (stored n data d) m = block d m.
Proof.
  intros Hm Hne. pose proof stored_fits as Hfit.
  pose proof (block_inside d n Hwf Hn).
  pose proof (block_inside d m Hwf Hm).
  assert (n < m ∨ m < n) as Hcase by lia.
  assert (n * block_size d + block_size d ≤ m * block_size d ∨
          m * block_size d + block_size d ≤ n * block_size d) as Hapart.
  { destruct Hcase; [left|right]; by apply blocks_apart. }
  destruct Hwf as (HB & _).
  apply list_eq; intros i.
  destruct (decide (i < Z.to_nat (block_size d))%nat) as [Hi|Hi].
  - rewrite !lookup_block by done. simpl. unfold Py.file_write.
    rewrite lookup_file_write_at by done.
    repeat case_decide; try done; exfalso; lia.
  - by rewrite !lookup_block_ge by (simpl; lia).
Qed.

Lemma write_block_full : write_block n data d = (Ok tt, stored n data d).
Proof.
  unfold write_block. rewrite Hn. simpl.
  destruct Hwf as (HB & _).
  rewrite (proj2 (Z.ltb_ge _ _)), (proj2 (Z.ltb_ge _ _)) by lia. done.
Qed.
End stored.

Lemma write_block_oversized d n data :
  in_range d n = true → block_size d < Z.of_nat (length data) →
  write_block n data d =
    (Raise (ValueError (Oversized (Z.of_nat (length data)))), d).
Proof.
  intros Hn Hlen. unfold write_block. rewrite Hn. simpl.
  rewrite (proj2 (Z.ltb_ge _ _)) by lia.
  by rewrite (proj2 (Z.ltb_lt _ _)) by lia.
Qed.

Lemma write_block_out d n data :
  in_range d n = false →
  write_block n data d = (Raise (ValueError (OutOfRange n)), d).
Proof. intros Hr. unfold write_block. by rewrite Hr. Qed.

(** *** The bitmap *)

Lemma index_in len i :
  0 ≤ i < Z.of_nat len → Py.index len i = Some (Z.to_nat i).
Proof.
  intros Hi. unfold Py.index.
  rewrite (proj2 (Z.ltb_ge _ _)) by lia.
  rewrite (proj2 (Z.leb_le _ _)), (proj2 (Z.ltb_lt _ _)) by lia. done.
Qed.

Lemma index_out len i :
  Z.of_nat len ≤ i → Py.index len i = None.
Proof.
  intros Hi. unfold Py.index.
  rewrite (proj2 (Z.ltb_ge _ _)) by lia.
  rewrite (proj2 (Z.ltb_ge i _)) by lia. by rewrite andb_false_r.
Qed.

Lemma getitem_nonneg {A} (l : list A) i :
  0 ≤ i →
  Py.getitem l i = match l !! Z.to_nat i with Some x => Ok x | None => Raise IndexError end.
Proof.
  intros Hi. unfold Py.getitem.
  destruct (decide (i < Z.of_nat (length l))) as [Hlt|Hge].
  - rewrite index_in by lia. done.
  - rewrite index_out by lia. simpl.
    by rewrite (lookup_ge_None_2 l (Z.to_nat i)) by lia.
Qed.

Lemma in_range_0 d : wf d → in_range d 0 = true.
Proof. intros (_ & Ht & _). apply in_range_spec. lia. Qed.

Lemma length_bitmap d : wf d → length (bitmap d) = Z.to_nat (block_size d).
Proof. intros Hwf. apply length_block; [done|by apply in_range_0]. Qed.

(** Setting a bitmap byte: the image changes in block 0 only. *)
Lemma set_bitmap_byte d n v :
  wf d → 0 ≤ n < block_size d →
  (do bitmap <- read_block 0;
   match Py.setitem bitmap n v with
   | Raise e => raise e
   | Ok bitmap => write_block 0 bitmap
   end) d = (Ok tt, stored 0 (<[Z.to_nat n:=v]> (bitmap d)) d).
Proof.
  intros Hwf Hn. unfold bind.
  rewrite read_block_in by by apply in_range_0.
  fold (bitmap d). unfold Py.setitem.
  rewrite index_in by (rewrite length_bitmap by done; lia).
  apply write_block_full; [done|by apply in_range_0|].
  by rewrite length_insert, length_bitmap.
Qed.

Lemma mark_block_used_in d n :
  wf d → 0 ≤ n < block_size d →
  mark_block_used n d = (Ok tt, stored 0 (<[Z.to_nat n:=x01]> (bitmap d)) d).
Proof. apply set_bitmap_byte. Qed.

Lemma mark_block_free_in d n :
  wf d → 0 ≤ n < block_size d →
  mark_block_free n d = (Ok tt, stored 0 (<[Z.to_nat n:=x00]> (bitmap d)) d).
Proof. apply set_bitmap_byte. Qed.

Lemma is_block_used_in d n :
  wf d → 0 ≤ n < block_size d →
  is_block_used n d = (Ok (bool_decide (bitmap d !! Z.to_nat n = Some x01)), d).
Proof.
  intros Hwf Hn. unfold is_block_used, bind.
  rewrite read_block_in by by apply in_range_0.
  fold (bitmap d). rewrite getitem_nonneg by lia.
  destruct (lookup_lt_is_Some_2 (bitmap d) (Z.to_nat n)) as [b Hb].
  { rewrite length_bitmap by done. lia. }
  rewrite Hb. unfold ret. do 2 f_equal.
  apply bool_decide_ext. split; [by intros ->|by intros [= ->]].
Qed.

Lemma bitmap_set d n v :
  wf d → bitmap (stored 0 (<[n:=v]> (bitmap d)) d) = <[n:=v]> (bitmap d).
Proof.
  intros Hwf. apply block_stored_eq; [done|by apply in_range_0|].
  by rewrite length_insert, length_bitmap.
Qed.

Lemma set_bitmap_wf d n v : wf d → wf (stored 0 (<[n:=v]> (bitmap d)) d).
Proof.
  intros Hwf. apply stored_wf; [done|by apply in_range_0|].
  by rewrite length_insert, length_bitmap.
Qed.

Lemma set_bitmap_block d n v m :
  wf d → in_range d m = true → m ≠ 0 →
  block (stored 0 (<[n:=v]> (bitmap d)) d) m = block d m.
Proof.
  intros Hwf Hm Hne. pose proof Hm as Hm'%in_range_spec.
  apply block_stored_ne; [done|by apply in_range_0| |done|done].
  by rewrite length_insert, length_bitmap.
Qed.

(** Device methods leave the geometry alone. *)
Lemma write_block_geometry n data d r d' :
  write_block n data d = (r, d') → geometry d' = geometry d.
Proof.
  unfold write_block. repeat case_match; by intros [= <- <-].
Qed.

Lemma set_bitmap_geometry n v d r d' :
  (do bitmap <- read_block 0;
   match Py.setitem bitmap n v with
   | Raise e => raise e
   | Ok bitmap => write_block 0 bitmap
   end) d = (r, d') → geometry d' = geometry d.
Proof.
  unfold bind, read_block. repeat case_match; simplify_eq;
    try (by intros [= <- <-]); by intros ?%write_block_geometry.
Qed.

Lemma geometry_block_size d d' : geometry d' = geometry d → block_size d' = block_size d.
Proof. by intros [= _ ? _ _]. Qed.
Lemma geometry_total_blocks d d' :
  geometry d' = geometry d → total_blocks d' = total_blocks d.
Proof. by intros [= _ _ ? _]. Qed.
Lemma geometry_in_range d d' n : geometry d' = geometry d → in_range d' n = in_range d n.
Proof. intros Hg. unfold in_range. by rewrite (geometry_total_blocks _ _ Hg). Qed.

Lemma write_block_inv d n data d' :
  wf d → write_block n data d = (Ok tt, d') →
  in_range d n = true ∧
  ∃ data', length data' = Z.to_nat (block_size d) ∧ d' = stored n data' d.
Proof.
  intros (HB & _) Hw. unfold write_block in Hw.
  destruct (in_range d n); simpl in Hw; [|done]. split; [done|].
  destruct (Z.ltb_spec (Z.of_nat (length data)) (block_size d)).
  - injection Hw as <-. eexists. split; [|done].
    rewrite length_app, length_replicate. lia.
  - destruct (Z.ltb_spec (block_size d) (Z.of_nat (length data))); [done|].
    injection Hw as <-. exists data. split; [lia|done].
Qed.

Lemma set_bitmap_byte_inv d n v d' :
  wf d → 0 ≤ n →
  (do bitmap <- read_block 0;
   match Py.setitem bitmap n v with
   | Raise e => raise e
   | Ok bitmap => write_block 0 bitmap
   end) d = (Ok tt, d') →
  n < block_size d ∧ d' = stored 0 (<[Z.to_nat n:=v]> (bitmap d)) d.
Proof.
  intros Hwf Hn Hset.
  destruct (decide (n < block_size d)) as [Hlt|Hge].
  - rewrite set_bitmap_byte in Hset by (done || lia). by injection Hset as <-.
  - unfold bind in Hset. rewrite read_block_in in Hset by by apply in_range_0.
    fold (bitmap d) in Hset. unfold Py.setitem in Hset.
    rewrite index_out in Hset; [done|].
    rewrite length_bitmap by done. destruct Hwf. lia.
Qed.

Lemma initializeBitmap_in d :
  wf d →
  initializeBitmap d =
    (Ok tt, stored 0 (<[0%nat:=x01]> (replicate (Z.to_nat (block_size d)) x00)) d).
Proof.
  intros Hwf. pose proof Hwf as (HB & _).
  unfold initializeBitmap. rewrite bind_gets. unfold Py.setitem.
  rewrite index_in by (rewrite length_replicate; lia). simpl.
  apply write_block_full; [done|by apply in_range_0|].
  by rewrite length_insert, length_replicate.
Qed.

Lemma init_wf total block d :
  init None total block = Ok d → wf d ∧ geometry d = (total, block, total `div` block, 1).
Proof.
  unfold init. case_decide as HB0; [done|].
  set (self := mk _ _ _ _ _).
  destruct (initializeBitmap self) as [[[]|e] d1] eqn:Hinit; [|done].
  intros [= ->]. unfold initializeBitmap, bind, gets in Hinit. simpl in Hinit.
  unfold Py.setitem in Hinit.
  destruct (Py.index _ 0) as [k|] eqn:Hidx; [|done].
  assert (0 < block) as HB.
  { unfold Py.index in Hidx. simpl in Hidx. rewrite length_replicate in Hidx.
    destruct (Z.ltb_spec 0 (Z.of_nat (Z.to_nat block))); [lia|done]. }
  pose proof (write_block_geometry _ _ _ _ _ Hinit) as Hg.
  unfold write_block in Hinit.
  destruct (in_range self 0) eqn:Hr; simpl in Hinit; [|done].
  apply in_range_spec in Hr. simpl in Hr.
  assert (wf self) as Hwf.
  { split; [done|]. split; [simpl; lia|]. simpl. rewrite length_replicate.
    pose proof (Z.mul_div_le total block HB).
    assert (0 ≤ total) by (destruct (decide (0 ≤ total)); [done|];
      pose proof (Z.div_lt_upper_bound total block 0 HB); lia).
    lia. }
  rewrite length_insert, length_replicate in Hinit.
  rewrite (proj2 (Z.ltb_ge _ _)), (proj2 (Z.ltb_ge _ _)) in Hinit by lia.
  injection Hinit as <-. split; [|done].
  apply stored_wf; [done|by apply in_range_0|].
  by rewrite length_insert, length_replicate.
Qed.

(** *** The scan for a free block *)

Lemma first_free_Some bm cands b :
  first_free bm cands = Ok (Some b) → b ∈ cands ∧ Py.getitem bm b = Ok x00.
Proof.
  induction cands as [|c cands IH]; simpl; [done|].
  destruct (Py.getitem bm c) as [v|e] eqn:Hget; [|done].
  case_decide as Hv.
  - intros [= ->]. subst v. split; [left|done].
  - intros Hrest. destruct (IH Hrest). split; [by right|done].
Qed.

Lemma first_free_None bm cands :
  first_free bm cands = Ok None →
  ∀ b, b ∈ cands → Py.getitem bm b ≠ Ok x00.
Proof.
  induction cands as [|c cands IH]; simpl; intros Hscan b Hb.
  - by apply elem_of_nil in Hb.
  - destruct (Py.getitem bm c) as [v|e] eqn:Hget; [|done].
    case_decide as Hv; [done|].
    apply elem_of_cons in Hb as [->|Hb]; [congruence|by apply IH].
Qed.

Lemma first_free_Raise bm cands e :
  first_free bm cands = Raise e → e = IndexError.
Proof.
  induction cands as [|c cands IH]; simpl; [done|].
  destruct (Py.getitem bm c) as [v|e'] eqn:Hget.
  - case_decide; [done|apply IH].
  - intros [= <-]. unfold Py.getitem in Hget.
    destruct (_ ≫= _); congruence.
Qed.

(** What [get_free_block] can answer. *)
Lemma get_free_block_inv d r d' :
  get_free_block d = (r, d') →
  d' = d ∧
  match r with
  | Ok (Some b) => 1 ≤ b < total_blocks d ∧ free d b
  | Ok None => ∀ b, 1 ≤ b < total_blocks d → ¬ free d b
  | Raise e => e = IndexError ∨ e = ValueError (OutOfRange 0)
  end.
Proof.
  unfold get_free_block, bind, gets, read_block.
  destruct (negb (in_range d 0)).
  { intros [= <- <-]. auto. }
  fold (block d 0). fold (bitmap d).
  destruct (first_free _ _) as [[b|]|e] eqn:Hscan; intros [= <- <-].
  - apply first_free_Some in Hscan as [Hb Hget]. split; [done|].
    apply elem_of_seqZ in Hb. split; [lia|].
    rewrite getitem_nonneg in Hget by lia. unfold free.
    destruct (bitmap d !! Z.to_nat b); congruence.
  - split; [done|]. intros b Hb Hfree.
    apply (first_free_None _ _ Hscan b); [apply elem_of_seqZ; lia|].
    rewrite getitem_nonneg by lia. unfold free in Hfree. by rewrite Hfree.
  - apply first_free_Raise in Hscan. auto.
Qed.

End VirtualDiskFacts.


Module FileSystemFacts.
Import VirtualDisk VirtualDiskFacts FileSystem.

Lemma on_disk_eq {A} (m : M VirtualDisk.t A) s r d' :
  m (disk s) = (r, d') → on_disk m s = (r, set_disk d' s).
Proof. intros Hm. unfold on_disk. by rewrite Hm. Qed.

Lemma on_disk_inv {A} (m : M VirtualDisk.t A) s r s' :
  on_disk m s = (r, s') → ∃ d', m (disk s) = (r, d') ∧ s' = set_disk d' s.
Proof. unfold on_disk. destruct (m (disk s)) as [r' d']. intros [= <- <-]. eauto. Qed.

Lemma write_block_fits d n data :
  VirtualDisk.wf d → in_range d n = true →
  Z.of_nat (length data) ≤ block_size d →
  ∃ data', length data' = Z.to_nat (block_size d) ∧
           write_block n data d = (Ok tt, stored n data' d).
Proof.
  intros Hwf Hn Hlen. unfold write_block. rewrite Hn. simpl.
  destruct (Z.ltb_spec (Z.of_nat (length data)) (block_size d)).
  - eexists. split; [|done]. rewrite length_app, length_replicate. lia.
  - rewrite (proj2 (Z.ltb_ge _ _)) by lia. exists data. split; [lia|done].
Qed.

Lemma after_save_effect data s :
  FileSystem.wf s → in_range (disk s) 1 = true →
  length data = Z.to_nat (block_size (disk s)) →
  let s' := after_save data s in
  FileSystem.wf s' ∧ inodes s' = inodes s ∧
  geometry (disk s') = geometry (disk s) ∧
  bitmap (disk s') = <[1%nat:=x01]> (bitmap (disk s)) ∧
  ∀ m, in_range (disk s) m = true → m ≠ 0 → m ≠ 1 →
       block (disk s') m = block (disk s) m.
Proof.
  intros [Hwf Hitb] Hr Hlen s'.
  assert (VirtualDisk.wf (stored 1 data (disk s))) as Hwf1 by by apply stored_wf.
  assert (bitmap (stored 1 data (disk s)) = bitmap (disk s)) as Hbm.
  { apply block_stored_ne; [done..|by apply in_range_0|done]. }
  split; [split; [by apply set_bitmap_wf|done]|].
  split; [done|]. split; [done|]. subst s'. unfold after_save. simpl.
  split; [by rewrite bitmap_set, Hbm|].
  intros m Hm Hm0 Hm1. rewrite set_bitmap_block by done.
  by apply block_stored_ne.
Qed.

Lemma set_disk_id s : set_disk (disk s) s = s.
Proof. by destruct s. Qed.

(** *** What the device calls leave alone *)

Lemma image_only_refl s : image_only s s.
Proof. done. Qed.

Lemma image_only_trans s1 s2 s3 :
  image_only s1 s2 → image_only s2 s3 → image_only s1 s3.
Proof. intros (? & ? & ?) (? & ? & ?). split_and!; congruence. Qed.

Lemma on_disk_image_only {A} (m : M VirtualDisk.t A) s r s' :
  (∀ d r d', m d = (r, d') → geometry d' = geometry d) →
  on_disk m s = (r, s') → image_only s s'.
Proof. intros Hm (d' & Hrun & ->)%on_disk_inv. split; [by eapply Hm|done]. Qed.

Lemma read_block_image_only n s r s' :
  on_disk (read_block n) s = (r, s') → s' = s.
Proof.
  intros (d' & Hrun & ->)%on_disk_inv. unfold read_block in Hrun.
  destruct (negb _); injection Hrun as <- <-; apply set_disk_id.
Qed.

Lemma write_block_image_only n data s r s' :
  on_disk (write_block n data) s = (r, s') → image_only s s'.
Proof. apply on_disk_image_only. intros d r0 d'. apply write_block_geometry. Qed.

Lemma mark_block_used_image_only n s r s' :
  on_disk (mark_block_used n) s = (r, s') → image_only s s'.
Proof. apply on_disk_image_only. intros d r0 d'. apply set_bitmap_geometry. Qed.

Lemma mark_block_free_image_only n s r s' :
  on_disk (mark_block_free n) s = (r, s') → image_only s s'.
Proof. apply on_disk_image_only. intros d r0 d'. apply set_bitmap_geometry. Qed.

Lemma free_blocks_image_only bs : ∀ s r s',
  free_blocks bs s = (r, s') → image_only s s'.
Proof.
  induction bs as [|b bs IH]; intros s r s'; simpl.
  - by intros [= <- <-].
  - intros [(? & s1 & Hm & Hrest)|(e & Hm & ->)]%bind_inv.
    + eapply image_only_trans; [by eapply mark_block_free_image_only|by eapply IH].
    + by eapply mark_block_free_image_only.
Qed.

Lemma allocate_new_block_same s r s' : _allocate_new_block s = (r, s') → s' = s.
Proof.
  unfold _allocate_new_block.
  intros [(r0 & s1 & (d' & Hg & ->)%on_disk_inv & Hk)|(e & (d' & Hg & ->)%on_disk_inv & ->)]%bind_inv;
    apply get_free_block_inv in Hg as [-> Hg]; rewrite set_disk_id in *; [|done].
  by destruct r0; injection Hk as <- <-.
Qed.

Lemma allocate_missing_image_only ls : ∀ m s r s',
  allocate_missing ls m s = (r, s') → image_only s s'.
Proof.
  induction ls as [|l ls IH]; intros m s r s'; simpl.
  - by intros [= <- <-].
  - destruct (m !! l); [by apply IH|].
    intros [(nb & s1 & Ha & Hrest)|(e & Ha & ->)]%bind_inv;
      apply allocate_new_block_same in Ha as ->; [|done].
    destruct nb as [nb|]; [|by injection Hrest as <- <-].
    apply bind_inv in Hrest as [(? & s2 & Hm & Hrest)|(e & Hm & ->)].
    + eapply image_only_trans; [by eapply mark_block_used_image_only|by eapply IH].
    + by eapply mark_block_used_image_only.
Qed.

Lemma write_loop_image_only fuel data m bs : ∀ c o s r s',
  write_loop fuel data m bs c o s = (r, s') → image_only s s'.
Proof.
  induction fuel as [|fuel IH]; intros c o s r s'; simpl.
  - destruct (negb _); by intros [= <- <-].
  - destruct (negb _); [by intros [= <- <-]|].
    case_decide; [by intros [= <- <-]|].
    destruct (m !! _); [|by intros [= <- <-]].
    intros [(cb & s1 & Hr & Hrest)|(e & Hr & ->)]%bind_inv;
      apply read_block_image_only in Hr as ->; [|done].
    apply bind_inv in Hrest as [(? & s2 & Hw & Hrest)|(e & Hw & ->)].
    + eapply image_only_trans; [by eapply write_block_image_only|by eapply IH].
    + by eapply write_block_image_only.
Qed.

(** *** Allocation *)

Lemma allocate_new_block_inv s r s' :
  _allocate_new_block s = (r, s') →
  s' = s ∧
  match r with
  | Ok (Some b) => 1 ≤ b < total_blocks (disk s) ∧ free (disk s) b
  | Ok None => False
  | Raise e => ∀ name, e ≠ FileNotFoundError name
  end.
Proof.
  unfold _allocate_new_block.
  intros [(r0 & s1 & (d' & Hg & ->)%on_disk_inv & Hk)|(e & (d' & Hg & ->)%on_disk_inv & ->)]%bind_inv;
    apply get_free_block_inv in Hg as [-> Hg]; rewrite set_disk_id in *.
  - destruct r0 as [b|]; injection Hk as <- <-; [done|]. by split.
  - split; [done|]. by destruct Hg as [-> | ->].
Qed.

Lemma free_lt_block_size d b :
  VirtualDisk.wf d → 0 ≤ b → free d b → b < block_size d.
Proof.
  intros Hwf Hb Hfree%lookup_lt_Some. rewrite length_bitmap in Hfree by done.
  destruct Hwf. lia.
Qed.

Lemma mark_free_block s b :
  VirtualDisk.wf (disk s) → 0 ≤ b → free (disk s) b →
  on_disk (mark_block_used b) s = (Ok tt, marked b s).
Proof.
  intros Hwf Hb Hfree. apply on_disk_eq, mark_block_used_in; [done|].
  split; [done|by apply free_lt_block_size].
Qed.

Lemma marked_effect s b :
  VirtualDisk.wf (disk s) →
  VirtualDisk.wf (disk (marked b s)) ∧
  bitmap (disk (marked b s)) = <[Z.to_nat b:=x01]> (bitmap (disk s)) ∧
  ∀ n, in_range (disk s) n = true → n ≠ 0 →
       block (disk (marked b s)) n = block (disk s) n.
Proof.
  intros Hwf. simpl. split; [by apply set_bitmap_wf|].
  split; [by apply bitmap_set|]. intros n Hn Hn0. by apply set_bitmap_block.
Qed.

Lemma allocate_missing_inv ls : ∀ m s m' s',
  VirtualDisk.wf (disk s) →
  allocate_missing ls m s = (Ok m', s') →
  VirtualDisk.wf (disk s') ∧
  inodes s' = inodes s ∧ inode_table_block s' = inode_table_block s ∧
  geometry (disk s') = geometry (disk s) ∧
  (∀ n, in_range (disk s) n = true → n ≠ 0 →
        block (disk s') n = block (disk s) n) ∧
  (∀ k, 0 ≤ k → used (disk s) k → used (disk s') k) ∧
  (∀ i, is_Some (m' !! i) ↔ i ∈ ls ∨ is_Some (m !! i)) ∧
  (∀ i v, m !! i = Some v → m' !! i = Some v) ∧
  (∀ i v, m !! i = None → m' !! i = Some v →
          1 ≤ v < total_blocks (disk s) ∧ free (disk s) v ∧ used (disk s') v) ∧
  (∀ i j v, m !! i = None → m !! j = None →
            m' !! i = Some v → m' !! j = Some v → i = j) ∧
  (∀ k, 0 ≤ k → (∀ i, m !! i = None → m' !! i ≠ Some k) →
        bitmap (disk s') !! Z.to_nat k = bitmap (disk s) !! Z.to_nat k).
Proof.
  induction ls as [|l ls IH]; intros m s m' s' Hwf; simpl.
  { intros [= <- <-]. split_and!; try done.
    - intros i. split; [by right|]. intros [Hi|Hi]; [by apply elem_of_nil in Hi|done].
    - congruence.
    - congruence. }
  destruct (m !! l) as [p|] eqn:Hml.
  { intros Hrun. destruct (IH _ _ _ _ Hwf Hrun)
      as (? & ? & ? & ? & ? & ? & Hdom & ? & ? & ? & ?).
    split_and!; try done.
    intros i. rewrite Hdom, elem_of_cons. split; [tauto|].
    intros [[->|Hi]|Hi]; [right; by rewrite Hml|by left|by right]. }
  intros ([b|] & s0 & Halloc & Hrest)%bind_Ok_inv;
    apply allocate_new_block_inv in Halloc as [-> Hb]; [|done].
  destruct Hb as [Hb Hfree].
  rewrite (bind_ok _ _ _ _ _ (mark_free_block s b Hwf ltac:(lia) Hfree)) in Hrest.
  destruct (marked_effect s b Hwf) as (Hwf1 & Hbm1 & Hblk1).
  destruct (IH _ _ _ _ Hwf1 Hrest)
    as (Hwf' & Hino & Hitb & Hgeo & Hblk & Hused & Hdom & Hold & Hnew & Hinj & Hbm).
  assert (Z.to_nat b < length (bitmap (disk s)))%nat as Hlen
    by by eapply lookup_lt_Some.
  assert (∀ k, 0 ≤ k → free (disk (marked b s)) k → free (disk s) k ∧ k ≠ b) as Hfree1.
  { intros k Hk. unfold free. rewrite Hbm1. intros Hf.
    destruct (decide (k = b)) as [->|Hne].
    - rewrite list_lookup_insert_eq in Hf by done. done.
    - rewrite list_lookup_insert_ne in Hf by lia. done. }
  assert (m' !! l = Some b) as Hl by (apply Hold; by rewrite lookup_insert_eq).
  split_and!; try done.
  - intros n Hn Hn0. rewrite Hblk by done. by apply Hblk1.
  - intros k Hk Hu. apply Hused; [done|]. unfold used in *. rewrite Hbm1.
    destruct (decide (k = b)) as [->|Hne]; [by apply list_lookup_insert_eq|].
    by rewrite list_lookup_insert_ne by lia.
  - intros i. rewrite Hdom, elem_of_cons.
    destruct (decide (l = i)) as [->|Hne].
    + rewrite lookup_insert_eq. split; [intros _; left; by left|intros _; by right].
    + rewrite lookup_insert_ne by done. split; [tauto|].
      intros [[->|?]|?]; [done|tauto|tauto].
  - intros i v Hi. apply Hold. rewrite lookup_insert_ne; [done|]. congruence.
  - intros i v Hi Hv. destruct (decide (l = i)) as [->|Hne].
    + rewrite Hl in Hv. injection Hv as <-. split_and!; try done; try lia.
      apply Hused; [lia|]. unfold used. rewrite Hbm1.
      by apply list_lookup_insert_eq.
    + destruct (Hnew i v) as (Hv' & Hf & Hu); [by rewrite lookup_insert_ne|done|].
      apply Hfree1 in Hf as [Hf _]; [|lia]. done.
  - intros i j v Hi Hj Hvi Hvj.
    destruct (decide (l = i)) as [<-|Hni], (decide (l = j)) as [<-|Hnj]; [done|..].
    + rewrite Hl in Hvi. injection Hvi as <-.
      destruct (Hnew j b) as (Hv & Hf & _); [by rewrite lookup_insert_ne|done|].
      apply Hfree1 in Hf; [by destruct Hf|lia].
    + rewrite Hl in Hvj. injection Hvj as <-.
      destruct (Hnew i b) as (Hv & Hf & _); [by rewrite lookup_insert_ne|done|].
      apply Hfree1 in Hf; [by destruct Hf|lia].
    + apply (Hinj i j v); by rewrite ?lookup_insert_ne.
  - intros k Hk Hnot. rewrite Hbm.
    + rewrite Hbm1. apply list_lookup_insert_ne.
      intros Heq. apply (Hnot l Hml). rewrite Hl. f_equal. lia.
    + done.
    + intros i Hi. apply Hnot. destruct (decide (l = i)) as [->|Hne]; [|by rewrite lookup_insert_ne in Hi].
      by rewrite lookup_insert_eq in Hi.
Qed.

(** *** The inode table and the block list *)

Lemma dict_get_set_eq {V} (d : list (string * V)) k v :
  Dict.get (Dict.set d k v) k = Some v.
Proof.
  induction d as [|[k' v'] d IH]; simpl.
  - by rewrite decide_True.
  - destruct (decide (k' = k)) as [->|Hne]; simpl.
    + by rewrite decide_True.
    + by rewrite decide_False.
Qed.

Lemma Sorted_seqZ a n : Sorted Z.le (seqZ a n).
Proof.
  destruct (decide (0 ≤ n)) as [Hn|Hn]; [|rewrite seqZ_nil by lia; constructor].
  rewrite <- (Z2Nat.id n Hn). generalize (Z.to_nat n). clear n Hn. intros n.
  revert a. induction n as [|n IH]; intros a.
  - rewrite seqZ_nil by lia. constructor.
  - rewrite seqZ_cons by lia. constructor.
    + replace (Z.pred (Z.of_nat (S n))) with (Z.of_nat n) by lia. apply IH.
    + replace (Z.pred (Z.of_nat (S n))) with (Z.of_nat n) by lia.
      destruct n as [|n]; [rewrite seqZ_nil by lia; constructor|].
      rewrite seqZ_cons by lia. constructor. lia.
Qed.

(** A mapping whose keys are [0 .. n-1] lists them in that order. *)
Lemma sorted_keys_dense (m : gmap Z Z) n :
  (∀ i, is_Some (m !! i) ↔ 0 ≤ i < n) → sorted_keys m = seqZ 0 n.
Proof.
  intros Hdom. unfold sorted_keys.
  apply (Sorted_unique Z.le).
  - apply Sorted_merge_sort; apply _.
  - apply Sorted_seqZ.
  - rewrite merge_sort_Permutation. apply NoDup_Permutation.
    + apply NoDup_elements.
    + apply NoDup_seqZ.
    + intros i. rewrite elem_of_elements, elem_of_dom, elem_of_seqZ, Hdom. lia.
Qed.

(** *** Reading a file back *)

Lemma get_block_size_eq s :
  on_disk get_block_size s = (Ok (block_size (disk s)), s).
Proof. unfold on_disk, get_block_size, gets. by rewrite set_disk_id. Qed.

Lemma on_disk_read_block s n :
  in_range (disk s) n = true →
  on_disk (read_block n) s = (Ok (block (disk s) n), s).
Proof.
  intros Hn. rewrite (on_disk_eq _ _ _ _ (read_block_in _ _ Hn)).
  by rewrite set_disk_id.
Qed.

(** When the blocks of [bs] begin with the successive block-sized
    pieces of [rest], the loop of [read_file] appends [rest]. *)
Lemma read_blocks_spec bs : ∀ acc rest s,
  VirtualDisk.wf (disk s) →
  Forall (λ b, in_range (disk s) b = true) bs →
  (length rest ≤ length bs * Z.to_nat (block_size (disk s)))%nat →
  (∀ j b, bs !! j = Some b →
     let piece := take (Z.to_nat (block_size (disk s)))
                       (drop (j * Z.to_nat (block_size (disk s))) rest) in
     take (length piece) (block (disk s) b) = piece) →
  read_blocks (Z.of_nat (length acc + length rest)) bs acc s = (Ok (acc ++ rest), s).
Proof.
  induction bs as [|b bs IH]; intros acc rest s Hwf Hin Hlen Hpieces; simpl.
  - destruct rest; [|simpl in Hlen; lia]. by rewrite app_nil_r.
  - apply Forall_cons in Hin as [Hb Hin]. pose proof Hwf as (HB & _).
    rewrite (bind_ok _ _ _ _ _ (on_disk_read_block s b Hb)).
    rewrite (bind_ok _ _ _ _ _ (get_block_size_eq s)).
    pose proof (length_block _ _ Hwf Hb) as Hblk.
    pose proof (Hpieces 0%nat b eq_refl) as Hfirst. simpl in Hfirst.
    rewrite drop_0 in Hfirst.
    destruct (Z.ltb_spec (Z.of_nat (length acc + length rest))
                (Z.of_nat (length acc) + block_size (disk s))) as [Hlast|Hmore].
    + rewrite !(take_ge rest) in Hfirst by lia.
      unfold Py.slice_to. rewrite (proj2 (Z.ltb_ge _ _)) by lia.
      replace (Z.to_nat (Z.of_nat (length acc + length rest) - Z.of_nat (length acc)))
        with (length rest) by lia.
      rewrite Hfirst.
      replace (Z.of_nat (length acc + length rest))
        with (Z.of_nat (length (acc ++ rest) + length (@nil byte)))
        by (rewrite length_app; simpl; lia).
      rewrite IH; [by rewrite app_nil_r|done|done|simpl; lia|].
      intros j b' _. simpl. by rewrite drop_nil, take_nil.
    + rewrite length_take_le in Hfirst by lia.
      rewrite (take_ge (block _ _)) in Hfirst by lia. rewrite Hfirst.
      replace (Z.of_nat (length acc + length rest))
        with (Z.of_nat (length (acc ++ take (Z.to_nat (block_size (disk s))) rest)
                        + length (drop (Z.to_nat (block_size (disk s))) rest))).
      2:{ rewrite length_app, length_take, length_drop. lia. }
      rewrite IH; [by rewrite <- app_assoc, take_drop|done|done| |].
      * rewrite length_drop. simpl in Hlen. lia.
      * intros j b' Hj. simpl. rewrite drop_drop.
        apply (Hpieces (S j) b' Hj).
Qed.

(** *** Writing the data *)

Lemma write_loop_done fuel data m bsz c o s :
  Z.of_nat (length data) ≤ o → write_loop fuel data m bsz c o s = (Ok tt, s).
Proof.
  intros Ho. destruct fuel; simpl; by rewrite (proj2 (Z.ltb_ge _ _)) by lia.
Qed.

Lemma write_loop_step fuel data m bsz c o s p :
  o < Z.of_nat (length data) → bsz ≠ 0 → m !! (c `div` bsz) = Some p →
  write_loop (S fuel) data m bsz c o s =
    (do current_block <- on_disk (read_block p);
     let bytes_to_write := (bsz - c `mod` bsz) `min` (Z.of_nat (length data) - o) in
     on_disk (write_block p
                (Py.set_slice current_block (c `mod` bsz) bytes_to_write
                   (Py.slice data o (o + bytes_to_write)))) ;;
     write_loop fuel data m bsz (c + bytes_to_write) (o + bytes_to_write)) s.
Proof.
  intros Ho HB Hm. simpl. rewrite (proj2 (Z.ltb_lt _ _)) by done. simpl.
  rewrite decide_False by done. by rewrite Hm.
Qed.

Lemma take_min_length {A} (l : list A) n : take (n `min` length l) l = take n l.
Proof.
  destruct (decide (n ≤ length l)%nat).
  - by rewrite Nat.min_l.
  - rewrite Nat.min_r by lia. by rewrite !take_ge by lia.
Qed.

Lemma pieces_written_done data m j nB s :
  VirtualDisk.wf (disk s) → (length data ≤ j * nB)%nat →
  pieces_written data m j nB s s.
Proof.
  intros Hwf Hge. split_and!; [done|done|done|].
  intros i p Hi Hlen. pose proof (Nat.mul_le_mono_r j i nB Hi). lia.
Qed.

(** A write at offset 0, from its [j]-th piece on, completes. *)
Lemma write_loop_spec fuel : ∀ data m s (j : nat) bsz nB,
  bsz = block_size (disk s) → nB = Z.to_nat bsz →
  VirtualDisk.wf (disk s) →
  (length data - j * nB ≤ fuel)%nat →
  (∀ i, (j ≤ i)%nat → (i * nB < length data)%nat →
        ∃ p, m !! Z.of_nat i = Some p ∧ in_range (disk s) p = true) →
  (∀ i i' p, (j ≤ i)%nat → (j ≤ i')%nat →
             (i * nB < length data)%nat → (i' * nB < length data)%nat →
             m !! Z.of_nat i = Some p → m !! Z.of_nat i' = Some p → i = i') →
  ∃ s',
    write_loop fuel data m bsz
      (Z.of_nat ((j * nB) `min` length data))
      (Z.of_nat ((j * nB) `min` length data)) s = (Ok tt, s') ∧
    pieces_written data m j nB s s'.
Proof.
  induction fuel as [|fuel IH]; intros data m s j bsz nB Hbsz HnB Hwf Hfuel Hmap Hinj.
  { exists s. rewrite write_loop_done by lia. split; [done|].
    apply pieces_written_done; [done|lia]. }
  destruct (decide (j * nB < length data)%nat) as [Hlt|Hge].
  2:{ exists s. rewrite write_loop_done by lia. split; [done|].
      apply pieces_written_done; [done|lia]. }
  pose proof Hwf as (HB & _). rewrite <- Hbsz in HB.
  destruct (Hmap j) as (p & Hp & Hrp); [done|done|].
  rewrite Nat.min_l by lia.
  assert (Z.of_nat (j * nB) = Z.of_nat j * bsz) as Hc by lia.
  rewrite write_loop_step with (p := p);
    [|lia|lia|by rewrite Hc, Z.div_mul by lia].
  rewrite (bind_ok _ _ _ _ _ (on_disk_read_block s p Hrp)).
  assert (Z.of_nat (j * nB) `mod` bsz = 0) as Hmod
    by (rewrite Hc; apply Z.mod_mul; lia).
  cbv zeta. rewrite !Hmod.
  set (k := (nB `min` (length data - j * nB))%nat).
  set (piece := take nB (drop (j * nB) data)).
  assert (length piece = k) as Hpiece.
  { unfold piece, k. rewrite length_take, length_drop. done. }
  assert ((bsz - 0) `min` (Z.of_nat (length data) - Z.of_nat (j * nB)) = Z.of_nat k)
    as -> by (unfold k; lia).
  assert (Py.slice data (Z.of_nat (j * nB)) (Z.of_nat (j * nB) + Z.of_nat k) = piece) as ->.
  { unfold Py.slice, piece, k.
    replace (Z.to_nat (Z.of_nat (j * nB) + _ - Z.of_nat (j * nB)))
      with (nB `min` length (drop (j * nB) data))%nat by (rewrite length_drop; lia).
    by rewrite Nat2Z.id, take_min_length. }
  pose proof (length_block _ _ Hwf Hrp) as Hcb. rewrite <- Hbsz, <- HnB in Hcb.
  set (newblk := Py.set_slice (block (disk s) p) 0 (Z.of_nat k) piece).
  assert (newblk = piece ++ drop k (block (disk s) p)) as Hnew.
  { unfold newblk, Py.set_slice. rewrite Z.add_0_l, Nat2Z.id.
    change (Z.to_nat 0) with 0%nat. by rewrite take_0. }
  assert (length newblk = Z.to_nat (block_size (disk s))) as Hnewlen.
  { rewrite Hnew, length_app, length_drop, Hpiece, Hcb, <- Hbsz, <- HnB. unfold k. lia. }
  rewrite (bind_ok _ _ _ _ _
             (on_disk_eq _ _ _ _ (write_block_full _ _ _ Hwf Hrp Hnewlen))).
  set (s1 := set_disk (stored p newblk (disk s)) s).
  replace (Z.of_nat (j * nB) + Z.of_nat k)
    with (Z.of_nat ((S j * nB) `min` length data)) by (unfold k; lia).
  assert (VirtualDisk.wf (disk s1)) as Hwf1 by by apply stored_wf.
  destruct (IH data m s1 (S j) bsz nB) as (s' & Hrun & Hwf' & Himg & Hsame & Hwritten).
  - done.
  - done.
  - done.
  - lia.
  - intros i Hi Hilen. apply Hmap; [lia|done].
  - intros i i' q Hi Hi'. apply Hinj; lia.
  - exists s'. split; [done|]. split; [done|]. split.
    { eapply image_only_trans; [|done]. done. }
    split.
    + intros n Hn Hfree. rewrite Hsame.
      * apply block_stored_ne; [done..|]. intros ->. by apply (Hfree j).
      * done.
      * intros i Hi. apply Hfree. lia.
    + intros i q Hi Hilen Hq. destruct (decide (i = j)) as [->|Hne].
      * rewrite Hp in Hq. injection Hq as <-. fold piece. rewrite Hpiece.
        rewrite Hsame; [|done|].
        -- simpl. rewrite block_stored_eq by done. rewrite Hnew.
           by rewrite <- Hpiece, take_app_length.
        -- intros i Hi' Hi'len Hmi. assert (i = j) by by eapply (Hinj i j p); try lia.
           lia.
      * apply Hwritten; [lia|done|done].
Qed.

(** *** Running out of blocks *)

Lemma length_filter_shrinks {A} (P Q : A → Prop)
    `{!∀ x, Decision (P x), !∀ x, Decision (Q x)} (l : list A) x :
  (∀ y, Q y → P y) → x ∈ l → P x → ¬ Q x →
  (length (filter Q l) < length (filter P l))%nat.
Proof.
  intros Himp. induction l as [|y l IH]; intros Hx HP HQ.
  - by apply elem_of_nil in Hx.
  - assert (length (filter Q l) ≤ length (filter P l))%nat as Hle.
    { clear -Himp. induction l as [|z l IH]; [done|].
      rewrite !filter_cons. destruct (decide (Q z)) as [HQz|HQz].
      - rewrite decide_True by by apply Himp. simpl. lia.
      - destruct (decide (P z)); simpl; lia. }
    rewrite !filter_cons. apply elem_of_cons in Hx as [<-|Hx].
    + destruct (decide (Q x)); [done|]. destruct (decide (P x)); [|done].
      simpl. lia.
    + specialize (IH Hx HP HQ).
      destruct (decide (Q y)) as [HQy|HQy].
      * rewrite decide_True by by apply Himp. simpl. lia.
      * destruct (decide (P y)); simpl; lia.
Qed.

Lemma filter_ext_elem {A} (P Q : A → Prop)
    `{!∀ x, Decision (P x), !∀ x, Decision (Q x)} (l : list A) :
  (∀ x, x ∈ l → P x ↔ Q x) → filter P l = filter Q l.
Proof.
  induction l as [|y l IH]; intros Hiff; [done|].
  rewrite !filter_cons, IH by (intros x Hx; apply Hiff; by right).
  pose proof (Hiff y ltac:(by left)).
  destruct (decide (P y)), (decide (Q y)); tauto.
Qed.

Lemma free_list_marked s b :
  VirtualDisk.wf (disk s) → 1 ≤ b < total_blocks (disk s) → free (disk s) b →
  (length (free_list (disk (marked b s))) < length (free_list (disk s)))%nat.
Proof.
  intros Hwf Hb Hfree. destruct (marked_effect s b Hwf) as (_ & Hbm & _).
  assert (Z.to_nat b < length (bitmap (disk s)))%nat as Hlen
    by by eapply lookup_lt_Some.
  unfold free_list. simpl total_blocks.
  apply (length_filter_shrinks _ _ _ b).
  - intros y. unfold free. rewrite Hbm.
    destruct (decide (Z.to_nat b = Z.to_nat y)) as [Heq|Hne].
    + rewrite <- Heq, list_lookup_insert_eq by done. done.
    + by rewrite list_lookup_insert_ne.
  - apply elem_of_seqZ. lia.
  - done.
  - unfold free. rewrite Hbm, list_lookup_insert_eq by done. done.
Qed.

Lemma allocate_missing_exhausts ls : ∀ m s,
  VirtualDisk.wf (disk s) → NoDup ls →
  (length (free_list (disk s)) < length (filter (λ i, m !! i = None) ls))%nat →
  ∃ e s', allocate_missing ls m s = (Raise e, s') ∧
          ∀ name, e ≠ FileNotFoundError name.
Proof.
  induction ls as [|l ls IH]; intros m s Hwf Hnd Hfew; simpl in *; [lia|].
  apply NoDup_cons in Hnd as [Hl Hnd]. rewrite filter_cons in Hfew.
  destruct (m !! l) as [p|] eqn:Hml.
  { rewrite decide_False in Hfew by done. by apply IH. }
  rewrite decide_True in Hfew by done. simpl in Hfew.
  destruct (_allocate_new_block s) as [r s0] eqn:Halloc.
  destruct (allocate_new_block_inv _ _ _ Halloc) as [-> Hr].
  destruct r as [[b|]|e]; [|done|].
  - destruct Hr as [Hb Hfree].
    rewrite (bind_ok _ _ _ _ _ Halloc).
    rewrite (bind_ok _ _ _ _ _ (mark_free_block s b Hwf ltac:(lia) Hfree)).
    destruct (marked_effect s b Hwf) as (Hwf1 & _ & _).
    apply IH; [done|done|].
    pose proof (free_list_marked s b Hwf Hb Hfree).
    assert (filter (λ i, <[l:=b]> m !! i = None) ls
            = filter (λ i, m !! i = None) ls) as ->; [|lia].
    apply filter_ext_elem. intros i Hi.
    rewrite lookup_insert_ne; [done|]. by intros ->.
  - exists e, s. split; [|done]. by rewrite (bind_raise _ _ _ _ _ Halloc).
Qed.

Section with_runtime.
Context `{Runtime}.

Lemma calculate_blocks_needed_eq s offset data_length :
  block_size (disk s) ≠ 0 →
  _calculate_blocks_needed offset data_length s =
    (Ok (set_range (offset `div` block_size (disk s))
           ((offset + data_length + block_size (disk s) - 1)
              `div` block_size (disk s) + 1)), s).
Proof.
  intros HB. unfold _calculate_blocks_needed. rewrite bind_gets. simpl.
  by rewrite decide_False.
Qed.

Lemma get_inode_eq s name inode :
  Dict.get (inodes s) name = Some inode → _get_inode name s = (Ok inode, s).
Proof. intros Hget. unfold _get_inode. by rewrite bind_gets, Hget. Qed.

Lemma save_inode_table_overflow s :
  in_range (disk s) (inode_table_block s) = true → table_overflows s →
  save_inode_table s =
    (Raise (ValueError (Oversized
       (Z.of_nat (length (json_dumps (table_json (inodes s))))))), s).
Proof.
  intros Hr Hov. unfold save_inode_table. rewrite !bind_gets.
  erewrite bind_raise; [done|].
  erewrite on_disk_eq by by apply write_block_oversized.
  by rewrite set_disk_id.
Qed.

Lemma save_inode_table_fits s :
  FileSystem.wf s → in_range (disk s) 1 = true → 1 < block_size (disk s) →
  ¬ table_overflows s →
  ∃ data, length data = Z.to_nat (block_size (disk s)) ∧
          save_inode_table s = (Ok tt, after_save data s).
Proof.
  intros [Hwf Hitb] Hr HB Hfit. unfold table_overflows in Hfit.
  destruct (write_block_fits (disk s) 1 (json_dumps (table_json (inodes s))))
    as (data & Hlen & Hw); [done|done|lia|].
  exists data. split; [done|].
  unfold save_inode_table. rewrite !bind_gets, Hitb.
  erewrite bind_ok by by apply on_disk_eq.
  erewrite on_disk_eq; [done|].
  rewrite mark_block_used_in; [done|by apply stored_wf|simpl; lia].
Qed.

Lemma save_inode_table_inv s s' :
  FileSystem.wf s → save_inode_table s = (Ok tt, s') →
  in_range (disk s) 1 = true ∧ 1 < block_size (disk s) ∧
  ∃ data, length data = Z.to_nat (block_size (disk s)) ∧ s' = after_save data s.
Proof.
  intros [Hwf Hitb]. unfold save_inode_table. rewrite !bind_gets, Hitb.
  intros ([] & s1 & (d1 & Hw & ->)%on_disk_inv & (d2 & Hm & ->)%on_disk_inv)%bind_Ok_inv.
  apply write_block_inv in Hw as (Hr & data & Hlen & ->); [|done].
  apply set_bitmap_byte_inv in Hm as [HB ->]; [|by apply stored_wf|done].
  split; [done|]. split; [done|]. by exists data.
Qed.

End with_runtime.
End FileSystemFacts.

(** ** Properties of the engine *)

Import VirtualDisk VirtualDiskFacts FileSystem FileSystemFacts.
Local Existing Instance CPython.runtime.

(** Decide a closed proposition by evaluation. *)
Ltac by_evaluation := apply (bool_decide_unpack _); vm_compute; exact I.

Lemma mem_false_get {V} (d : list (string * V)) k :
  Dict.mem d k = false → Dict.get d k = None.
Proof.
  unfold Dict.mem. intros Hm%bool_decide_eq_false.
  destruct (Dict.get d k); [|done]. destruct Hm. by eexists.
Qed.

(** C7: for a name that the inode table does not hold, [read_file]
    returns [None], [delete_file] returns [False] and [write_file]
    returns [False]; each call leaves the whole state (image, bitmap and
    inode table) as it was. *)
Theorem absent_name_is_reported `{Runtime} (s : FileSystem.t) name data offset :
  Dict.mem (inodes s) name = false →
  read_file name s = (Ok None, s) ∧
  delete_file name s = (Ok false, s) ∧
  write_file name data offset s = (Ok false, s).
Proof.
  intros Hget%mem_false_get. split_and!.
  - unfold read_file. by rewrite bind_gets, Hget.
  - unfold delete_file. by rewrite bind_gets, Hget.
  - unfold write_file, write_file_try.
    rewrite (bind_raise _ _ s (FileNotFoundError name) s); [done|].
    unfold _get_inode. by rewrite bind_gets, Hget.
Qed.

Lemma absent_name_is_reported_witness :
  let s := CPython.blank in
  let name := "nonexistent.txt"%string in
  let data := String.list_byte_of_string "This should fail" in
  Dict.mem (inodes s) name = false ∧
  read_file name s = (Ok None, s) ∧
  delete_file name s = (Ok false, s) ∧
  write_file name data 0 s = (Ok false, s).
Proof.
  intros s name data. split; [by vm_compute|].
  apply (absent_name_is_reported s name data 0). by vm_compute.
Defined.

(** C10: the three bitmap methods check no block index.  For an index
    [n] with [total_blocks <= n < block_size] they return normally:
    [mark_block_used] and [mark_block_free] rewrite bitmap byte [n],
    which lies beyond the bytes that stand for blocks, and
    [is_block_used] reads it.  [read_block] and [write_block] raise the
    out-of-range [ValueError] for that index, as they do for every index
    outside [0, total_blocks). *)
Theorem bitmap_methods_check_no_index (d : VirtualDisk.t) (n : Z) :
  VirtualDisk.wf d →
  total_blocks d ≤ n < block_size d →
  (∃ d', mark_block_used n d = (Ok tt, d') ∧
         bitmap d' = <[Z.to_nat n:=x01]> (bitmap d)) ∧
  (∃ d', mark_block_free n d = (Ok tt, d') ∧
         bitmap d' = <[Z.to_nat n:=x00]> (bitmap d)) ∧
  is_block_used n d = (Ok (bool_decide (bitmap d !! Z.to_nat n = Some x01)), d) ∧
  (Z.to_nat n < length (bitmap d))%nat ∧
  ∀ m data, ¬ (0 ≤ m < total_blocks d) →
    read_block m d = (Raise (ValueError (OutOfRange m)), d) ∧
    write_block m data d = (Raise (ValueError (OutOfRange m)), d).
Proof.
  intros Hwf Hn. pose proof Hwf as (HB & Ht & _).
  split_and!.
  - eexists. split; [apply mark_block_used_in; [done|lia]|by apply bitmap_set].
  - eexists. split; [apply mark_block_free_in; [done|lia]|by apply bitmap_set].
  - apply is_block_used_in; [done|lia].
  - rewrite length_bitmap by done. lia.
  - intros m data Hm.
    assert (in_range d m = false) as Hr.
    { destruct (in_range d m) eqn:Hr; [|done]. by apply in_range_spec in Hr. }
    split; [by apply read_block_out|by apply write_block_out].
Qed.

Lemma bitmap_methods_check_no_index_witness :
  let d := CPython.blank_disk in
  VirtualDisk.wf d ∧ total_blocks d ≤ 256 < block_size d ∧
  fst (mark_block_used 256 d) = Ok tt ∧
  fst (read_block 256 d) = Raise (ValueError (OutOfRange 256)).
Proof.
  intros d.
  assert (VirtualDisk.wf d) as Hwf by by_evaluation.
  assert (total_blocks d ≤ 256 < block_size d) as Hn by by_evaluation.
  split; [done|]. split; [done|].
  destruct (bitmap_methods_check_no_index d 256 Hwf Hn)
    as ((d' & -> & _) & _ & _ & _ & Hrw).
  split; [done|].
  destruct (Hrw 256 []) as [-> _]; [lia|done].
Defined.

Lemma image_only_in_range s s' :
  image_only s s' →
  in_range (disk s') (inode_table_block s') = in_range (disk s) (inode_table_block s).
Proof. intros (Hg & -> & _). by apply geometry_in_range. Qed.

(** C8: the inode table has one block.  When the serialised table is
    longer than a block, [save_inode_table] raises the oversized-write
    [ValueError] of [write_block]; a [create_file], a [delete_file] or a
    [write_file] that reaches the save with such a table raises it too
    instead of returning [False], keeping the change it made to the
    table in memory. *)
Theorem table_overflow_propagates `{Runtime} (s : FileSystem.t) :
  in_range (disk s) (inode_table_block s) = true →
  (table_overflows s →
   ∃ n, save_inode_table s = (Raise (ValueError (Oversized n)), s)) ∧
  (∀ name now,
     Dict.mem (inodes s) name = false →
     let s1 := set_inodes (Dict.set (inodes s) name (Inode.init name 0 now)) s in
     table_overflows s1 →
     ∃ n, create_file name now s = (Raise (ValueError (Oversized n)), s1)) ∧
  (∀ name inode s1,
     Dict.get (inodes s) name = Some inode →
     free_blocks (Inode.blocks inode) s = (Ok tt, s1) →
     let s2 := set_inodes (Dict.del (inodes s1) name) s1 in
     table_overflows s2 →
     ∃ n, delete_file name s = (Raise (ValueError (Oversized n)), s2)) ∧
  (∀ name data offset inode blocks_needed block_mapping s1 s2,
     Dict.get (inodes s) name = Some inode →
     _calculate_blocks_needed offset (Z.of_nat (length data)) s = (Ok blocks_needed, s) →
     _ensure_blocks_allocated inode blocks_needed s = (Ok block_mapping, s1) →
     _write_data_to_blocks data offset block_mapping s1 = (Ok tt, s2) →
     let inode' := updated_inode offset (Z.of_nat (length data)) block_mapping inode in
     let s3 := set_inodes (Dict.set (inodes s2) name inode') s2 in
     table_overflows s3 →
     ∃ n, write_file name data offset s = (Raise (ValueError (Oversized n)), s3)).
Proof.
  intros Hr. split_and!.
  - intros Hov. eexists. by apply save_inode_table_overflow.
  - intros name now Hmem s1 Hov. eexists.
    unfold create_file. rewrite bind_gets, Hmem, bind_modify. fold s1.
    by rewrite (bind_raise _ _ _ _ _ (save_inode_table_overflow s1 Hr Hov)).
  - intros name inode s1 Hget Hfree s2 Hov. eexists.
    unfold delete_file. rewrite bind_gets, Hget.
    rewrite (bind_ok _ _ _ _ _ Hfree), bind_gets, bind_modify. fold s2.
    apply free_blocks_image_only in Hfree.
    assert (in_range (disk s2) (inode_table_block s2) = true) as Hr2
      by by rewrite <- Hr, <- (image_only_in_range s s1).
    by rewrite (bind_raise _ _ _ _ _ (save_inode_table_overflow s2 Hr2 Hov)).
  - intros name data offset inode ls m s1 s2 Hget Hcalc Hens Hwr inode' s3 Hov.
    assert (image_only s s2) as Hfr.
    { eapply image_only_trans; [by eapply allocate_missing_image_only|].
      unfold _write_data_to_blocks in Hwr. rewrite bind_gets in Hwr.
      by eapply write_loop_image_only. }
    destruct Hfr as (Hg & Hitb & Hino).
    assert (_update_inode name offset (Z.of_nat (length data)) m s2 =
            (Raise (ValueError (Oversized
               (Z.of_nat (length (json_dumps (table_json (inodes s3))))))), s3)) as Hup.
    { unfold _update_inode. rewrite bind_gets, Hino, Hget, bind_modify.
      rewrite <- Hino. fold inode'. fold s3.
      apply save_inode_table_overflow; [|done]. simpl.
      by rewrite <- Hr, Hitb, (geometry_in_range _ _ _ Hg). }
    eexists. unfold write_file, write_file_try.
    rewrite (bind_ok _ _ s inode s) by (unfold _get_inode; by rewrite bind_gets, Hget).
    rewrite (bind_ok _ _ _ _ _ Hcalc), (bind_ok _ _ _ _ _ Hens), (bind_ok _ _ _ _ _ Hwr).
    by rewrite (bind_raise _ _ _ _ _ Hup).
Qed.

Lemma table_overflow_propagates_witness :
  let s := CPython.blank in
  let name := CPython.long_name 2100 in
  in_range (disk s) (inode_table_block s) = true ∧
  Dict.mem (inodes s) name = false ∧
  ∃ n, fst (create_file name CPython.now s) = Raise (ValueError (Oversized n)).
Proof.
  intros s name.
  assert (in_range (disk s) (inode_table_block s) = true) as Hr by by vm_compute.
  assert (Dict.mem (inodes s) name = false) as Hm by by vm_compute.
  split; [done|]. split; [done|].
  destruct (table_overflow_propagates s Hr) as (_ & Hcreate & _).
  destruct (Hcreate name CPython.now Hm) as [n Hrun]; [by_evaluation|].
  exists n. by rewrite Hrun.
Defined.

Lemma needed_blocks_missing `{Runtime} inode block_size offset data_length :
  let start_block := offset `div` block_size in
  let end_block := (offset + data_length + block_size - 1) `div` block_size in
  let ls := set_range start_block (end_block + 1) in
  NoDup ls ∧
  length (filter (λ i, (map_seqZ 0 (Inode.blocks inode) : gmap Z Z) !! i = None) ls)
  = length (missing inode block_size offset data_length).
Proof.
  intros start_block end_block ls. split.
  - unfold ls. rewrite set_range_perm. apply NoDup_seqZ.
  - apply Permutation_length. unfold ls. rewrite set_range_perm.
    unfold missing. fold start_block. fold end_block.
    erewrite list_filter_iff; [done|]. intros i. simpl.
    rewrite lookup_map_seqZ_None. lia.
Qed.

(** C2, as the code has it: when the free blocks are fewer than the
    logical blocks of the write that the file does not have yet,
    [write_file] on an existing file returns neither [True] nor [False]:
    the exception raised during allocation leaves [write_file], whose
    handler takes [FileNotFoundError] alone. *)
Theorem disk_full_write_raises `{Runtime} (s : FileSystem.t) name data offset inode :
  VirtualDisk.wf (disk s) →
  Dict.get (inodes s) name = Some inode →
  (length (free_list (disk s))
   < length (missing inode (block_size (disk s)) offset (Z.of_nat (length data))))%nat →
  ∃ e s', write_file name data offset s = (Raise e, s').
Proof.
  intros Hwf Hget Hfew.
  destruct (needed_blocks_missing inode (block_size (disk s)) offset
              (Z.of_nat (length data))) as [Hnd Hlen]. simpl in Hnd, Hlen.
  rewrite <- Hlen in Hfew.
  destruct (allocate_missing_exhausts _ _ s Hwf Hnd Hfew) as (e & s' & Hrun & Hne).
  exists e, s'. unfold write_file, write_file_try.
  rewrite (bind_ok _ _ _ _ _ (get_inode_eq s name inode Hget)).
  rewrite (bind_ok _ _ _ _ _ (calculate_blocks_needed_eq s offset _
             ltac:(destruct Hwf; lia))).
  unfold _ensure_blocks_allocated at 1. rewrite (bind_raise _ _ _ _ _ Hrun).
  destruct e; try done. by destruct (Hne name0).
Qed.

Lemma disk_full_write_raises_witness :
  let s := CPython.full in
  let name := "a.txt"%string in
  let data := [x41] in
  VirtualDisk.wf (disk s) ∧
  Dict.get (inodes s) name = Some (CPython.fresh_inode name) ∧
  ∃ e s', write_file name data 0 s = (Raise e, s').
Proof.
  intros s name data.
  assert (VirtualDisk.wf (disk s)) as Hwf by by_evaluation.
  assert (Dict.get (inodes s) name = Some (CPython.fresh_inode name)) as Hget
    by by vm_compute.
  split; [done|]. split; [done|].
  apply (disk_full_write_raises s name data 0 _ Hwf Hget). by_evaluation.
Defined.

(** C2, as stated, fails: on a full disk a write to an existing file
    raises instead of returning [False]. *)
Lemma disk_full_write_escapes :
  let s := CPython.full in
  Dict.mem (inodes s) "a.txt" = true ∧
  free_list (disk s) = [] ∧
  fst (write_file "a.txt" [x41] 0 s) = Raise (NameError "DiskFullError") ∧
  fst (write_file "a.txt" [x41] 0 s) ≠ Ok false.
Proof.
  intros s. split_and!; by vm_compute.
Qed.

(** C3 fails on the code: a write of one byte at offset 0 to a new file
    touches logical block 0 alone, and [range(0, ceil(1 / B))] is that
    block, but [_calculate_blocks_needed] also returns logical block 1
    and the write allocates a second physical block for it. *)
Theorem write_allocates_past_its_range :
  let s := CPython.created in
  let s' := CPython.written 0 in
  Py.range (0 `div` 4096) ((0 + 1 + 4096 - 1) `div` 4096) = [0] ∧
  fst (_calculate_blocks_needed 0 1 s) = Ok [0; 1] ∧
  fst (write_file "a.txt" [x41] 0 s) = Ok true ∧
  Inode.blocks <$> Dict.get (inodes s') "a.txt" = Some [2; 3] ∧
  free (disk s) 3 ∧ used (disk s') 3.
Proof. intros s s'. split_and!; by vm_compute. Qed.

(** C4 fails on the code: a write of one byte at offset [2 * B] to a new
    file succeeds and leaves [size = 2 * B + 1] with two blocks, so
    [ceil(size / B) = 3] exceeds [len(blocks) = 2]. *)
Theorem write_past_end_breaks_size_invariant :
  let s := CPython.created in
  let s' := CPython.written (2 * 4096) in
  fst (write_file "a.txt" [x41] (2 * 4096) s) = Ok true ∧
  (Inode.size <$> Dict.get (inodes s') "a.txt" = Some 8193) ∧
  (Inode.blocks <$> Dict.get (inodes s') "a.txt" = Some [2; 3]) ∧
  ¬ ((8193 + 4096 - 1) `div` 4096 ≤ Z.of_nat (length [2; 3])).
Proof. intros s s'. split_and!; by vm_compute. Qed.

(** C5 fails on the code: [__init__] calls [initializeBitmap] whether or
    not the image exists, so constructing a device over an image of full
    size replaces its block 0 by a bitmap in which block 0 alone is
    used. *)
Theorem reopen_resets_bitmap (f : list byte) :
  Z.of_nat (length f) = 1024 * 1024 →
  ∃ d, VirtualDisk.init (Some f) (1024 * 1024) 4096 = Ok d ∧
       bitmap d = <[0%nat:=x01]> (replicate (Z.to_nat 4096) x00).
Proof.
  intros Hlen. unfold VirtualDisk.init. rewrite decide_False by done.
  set (self := VirtualDisk.mk _ _ _ _ _).
  assert (VirtualDisk.wf self) as Hwf.
  { unfold VirtualDisk.wf, self, total_blocks, block_size, image.
    rewrite Hlen. by vm_compute. }
  rewrite initializeBitmap_in by done. eexists. split; [done|].
  apply block_stored_eq; [done|by apply in_range_0|].
  by rewrite length_insert, length_replicate.
Qed.

Lemma reopen_resets_bitmap_witness :
  let f := image (disk (CPython.written 0)) in
  Z.of_nat (length f) = 1024 * 1024 ∧
  take 4 (Py.file_read f 0 4096) = [x01; x01; x01; x01] ∧
  ∃ d, VirtualDisk.init (Some f) (1024 * 1024) 4096 = Ok d ∧
       take 4 (bitmap d) = [x01; x00; x00; x00].
Proof.
  intros f.
  assert (Z.of_nat (length f) = 1024 * 1024) as Hlen by by vm_compute.
  split; [done|]. split; [by vm_compute|].
  destruct (reopen_resets_bitmap f Hlen) as (d & Hinit & Hbm).
  exists d. split; [done|]. rewrite Hbm. by vm_compute.
Defined.

(** C6 fails on the code: block 1 of a new image holds no text, so
    [load_inode_table] neither raises nor saves, and the engine starts
    with bitmap byte 1 at 0; the allocator would hand out block 1. *)
Theorem fresh_engine_leaves_block_1_free :
  match FileSystem.init None with
  | Ok s =>
      inodes s = [] ∧
      take 2 (bitmap (disk s)) = [x01; x00] ∧
      fst (is_block_used 1 (disk s)) = Ok false ∧
      fst (get_free_block (disk s)) = Ok (Some 1)
  | Raise _ => False
  end.
Proof. vm_compute. by split_and!. Qed.

Lemma allocate_new_block_eq s b :
  fst (get_free_block (disk s)) = Ok (Some b) →
  _allocate_new_block s = (Ok (Some b), s) ∧
  1 ≤ b < total_blocks (disk s) ∧ free (disk s) b.
Proof.
  destruct (get_free_block (disk s)) as [r d'] eqn:Hg. simpl. intros ->.
  destruct (get_free_block_inv _ _ _ Hg) as [-> Hb]. split; [|done].
  unfold _allocate_new_block.
  rewrite (bind_ok _ _ _ _ _ (on_disk_eq _ _ _ _ Hg)). by rewrite set_disk_id.
Qed.

Lemma set_range_singleton `{Runtime} a : set_range a (a + 1) = [a].
Proof.
  apply Permutation_singleton_r. rewrite set_range_perm. unfold Py.range.
  replace (a + 1 - a) with 1 by lia. done.
Qed.

(** C9, as the code has it: a write of no bytes at offset 0 to an
    existing file whose block list is empty and whose size is 0 is not a
    no-op, when it completes.  When the allocator has a free block [b]
    and the table still fits its block, [write_file] returns [True], the
    file's block list becomes [[b]] with its size still 0, and bitmap
    byte [b] goes from 0 to 1; apart from byte 1, which every save sets,
    no other bitmap byte changes. *)
Theorem empty_write_allocates_a_block `{Runtime} (s : FileSystem.t) name inode b :
  FileSystem.wf s →
  Dict.get (inodes s) name = Some inode →
  Inode.blocks inode = [] →
  Inode.size inode = 0 →
  fst (get_free_block (disk s)) = Ok (Some b) →
  let inode' := Inode.set_blocks [b] inode in
  ¬ table_overflows (set_inodes (Dict.set (inodes s) name inode') s) →
  ∃ s',
    write_file name [] 0 s = (Ok true, s') ∧
    Dict.get (inodes s') name = Some inode' ∧
    Inode.size inode' = 0 ∧
    free (disk s) b ∧ used (disk s') b ∧
    ∀ k, 0 ≤ k → k ≠ b → k ≠ 1 →
         bitmap (disk s') !! Z.to_nat k = bitmap (disk s) !! Z.to_nat k.
Proof.
  intros [Hwf Hitb] Hget Hblocks Hsize Hfree inode' Hfits.
  pose proof Hwf as (HB & _).
  destruct (allocate_new_block_eq s b Hfree) as (Halloc & Hb & Hfb).
  assert (in_range (disk s) 1 = true) as Hr1 by (apply in_range_spec; lia).
  pose proof (free_lt_block_size (disk s) b Hwf ltac:(lia) Hfb) as HbB.
  destruct (marked_effect s b Hwf) as (Hwf1 & Hbm1 & Hblk1).
  set (m := <[0:=b]> (∅ : gmap Z Z)).
  assert (_calculate_blocks_needed 0 (Z.of_nat (length (@nil byte))) s = (Ok [0], s))
    as Hcalc.
  { rewrite calculate_blocks_needed_eq by lia. simpl.
    rewrite Z.div_0_l by lia. rewrite (Z.div_small (0 + 0 + _ - 1)) by lia.
    by rewrite (set_range_singleton 0). }
  assert (_ensure_blocks_allocated inode [0] s = (Ok m, marked b s)) as Hens.
  { unfold _ensure_blocks_allocated. rewrite Hblocks. simpl.
    rewrite lookup_empty, (bind_ok _ _ _ _ _ Halloc).
    by rewrite (bind_ok _ _ _ _ _ (mark_free_block s b Hwf ltac:(lia) Hfb)). }
  assert (_write_data_to_blocks [] 0 m (marked b s) = (Ok tt, marked b s)) as Hwr by done.
  assert (sorted_keys m = [0]) as Hkeys.
  { apply (sorted_keys_dense m 1). intros i. unfold m.
    destruct (decide (i = 0)) as [->|Hne].
    - rewrite lookup_insert_eq. split; [lia|by eexists].
    - rewrite lookup_insert_ne, lookup_empty by done.
      split; [by intros [? ?]|lia]. }
  assert (updated_inode 0 (Z.of_nat (length (@nil byte))) m inode = inode') as Hup.
  { unfold updated_inode, inode'. rewrite Hkeys. simpl.
    unfold m. rewrite lookup_total_insert_eq.
    unfold Inode.set_size, Inode.set_blocks. simpl. rewrite Hsize. done. }
  set (su := set_inodes (Dict.set (inodes s) name inode') (marked b s)).
  destruct (save_inode_table_fits su) as (data & Hdata & Hsave);
    [done|done|simpl; lia|done|].
  destruct (after_save_effect data su) as (_ & Hino & _ & Hbm & _); [done..|].
  exists (after_save data su). split_and!.
  - unfold write_file, write_file_try.
    rewrite (bind_ok _ _ _ _ _ (get_inode_eq s name inode Hget)).
    rewrite (bind_ok _ _ _ _ _ Hcalc), (bind_ok _ _ _ _ _ Hens).
    rewrite (bind_ok _ _ _ _ _ Hwr).
    assert (_update_inode name 0 (Z.of_nat (length (@nil byte))) m (marked b s)
            = (Ok tt, after_save data su)) as Hupd.
    { unfold _update_inode. rewrite bind_gets.
      change (inodes (marked b s)) with (inodes s). by rewrite Hget, Hup, bind_modify. }
    by rewrite (bind_ok _ _ _ _ _ Hupd).
  - rewrite Hino. apply dict_get_set_eq.
  - done.
  - done.
  - unfold used. rewrite Hbm. change (disk su) with (disk (marked b s)).
    rewrite Hbm1. assert (Z.to_nat b < length (bitmap (disk s)))%nat
      by (rewrite length_bitmap by done; lia).
    destruct (decide (b = 1)) as [->|Hne].
    + apply list_lookup_insert_eq. by rewrite length_insert.
    + rewrite list_lookup_insert_ne by lia. by apply list_lookup_insert_eq.
  - intros k Hk Hkb Hk1. rewrite Hbm. change (disk su) with (disk (marked b s)).
    rewrite Hbm1. by rewrite !list_lookup_insert_ne by lia.
Qed.

Lemma empty_write_allocates_a_block_witness :
  let s := CPython.created in
  let name := "a.txt"%string in
  FileSystem.wf s ∧
  fst (get_free_block (disk s)) = Ok (Some 2) ∧
  ∃ s', write_file name [] 0 s = (Ok true, s') ∧
        Inode.blocks <$> Dict.get (inodes s') name = Some [2] ∧
        Inode.size <$> Dict.get (inodes s') name = Some 0.
Proof.
  intros s name.
  assert (FileSystem.wf s) as Hwf by by_evaluation.
  assert (fst (get_free_block (disk s)) = Ok (Some 2)) as Hfree by by vm_compute.
  split; [done|]. split; [done|].
  destruct (empty_write_allocates_a_block s name (CPython.fresh_inode name) 2 Hwf)
    as (s' & Hrun & Hget & _);
    [vm_compute; reflexivity..|by_evaluation|].
  exists s'. split; [exact Hrun|]. rewrite Hget. split; reflexivity.
Defined.

(** C9, as stated, fails: on a full disk the file exists with an empty
    block list and size 0, the allocator has no block for logical block
    0, and the write of no bytes raises instead of returning [True]; the
    inode keeps its empty block list. *)
Lemma empty_write_on_full_disk_raises :
  let s := CPython.full in
  let s' := CPython.after (write_file "a.txt" [] 0) s in
  Dict.get (inodes s) "a.txt" = Some (CPython.fresh_inode "a.txt") ∧
  Inode.blocks (CPython.fresh_inode "a.txt") = [] ∧
  Inode.size (CPython.fresh_inode "a.txt") = 0 ∧
  fst (get_free_block (disk s)) = Ok None ∧
  fst (write_file "a.txt" [] 0 s) = Raise (NameError "DiskFullError") ∧
  fst (write_file "a.txt" [] 0 s) ≠ Ok true ∧
  Inode.blocks <$> Dict.get (inodes s') "a.txt" = Some [].
Proof.
  intros s s'.
  assert (fst (write_file "a.txt" [] 0 s) = Raise (NameError "DiskFullError")) as Hw
    by (vm_compute; reflexivity).
  split_and!;
    [vm_compute; reflexivity|reflexivity|reflexivity|vm_compute; reflexivity
    |exact Hw|rewrite Hw; discriminate|vm_compute; reflexivity].
Qed.

(** ** Round trip *)

Lemma create_file_inv `{Runtime} s name now s1 :
  FileSystem.wf s →
  create_file name now s = (Ok true, s1) →
  FileSystem.wf s1 ∧ in_range (disk s1) 1 = true ∧ used (disk s1) 1 ∧
  Dict.get (inodes s1) name = Some (Inode.init name 0 now).
Proof.
  intros Hwf. unfold create_file. rewrite bind_gets.
  destruct (Dict.mem (inodes s) name); [by intros [= ? ?]|].
  rewrite bind_modify.
  set (s0 := set_inodes _ s).
  assert (FileSystem.wf s0) as Hwf0 by exact Hwf.
  intros ([] & sx & Hsave & [= <-])%bind_Ok_inv.
  apply save_inode_table_inv in Hsave as (Hr & HB & data & Hdata & ->); [|done].
  destruct (after_save_effect data s0 Hwf0 Hr Hdata) as (Hwf1 & Hino & Hg & Hbm & _).
  cbv zeta in Hwf1, Hino, Hg, Hbm.
  split; [done|]. split.
  { by rewrite (geometry_in_range _ _ _ Hg). }
  split.
  - unfold used. rewrite Hbm. apply list_lookup_insert_eq.
    rewrite length_bitmap by apply Hwf0. lia.
  - rewrite Hino. apply dict_get_set_eq.
Qed.

Lemma update_inode_inv `{Runtime} sb name inode offset len m s2 :
  FileSystem.wf sb →
  Dict.get (inodes sb) name = Some inode →
  _update_inode name offset len m sb = (Ok tt, s2) →
  FileSystem.wf s2 ∧
  Dict.get (inodes s2) name = Some (updated_inode offset len m inode) ∧
  geometry (disk s2) = geometry (disk sb) ∧
  ∀ n, in_range (disk sb) n = true → n ≠ 0 → n ≠ 1 →
       block (disk s2) n = block (disk sb) n.
Proof.
  intros Hwf Hget. unfold _update_inode. rewrite bind_gets, Hget, bind_modify.
  set (su := set_inodes _ sb).
  assert (FileSystem.wf su) as Hwfu by exact Hwf.
  intros Hsave.
  apply save_inode_table_inv in Hsave as (Hr & HB & data & Hdata & ->); [|done].
  destruct (after_save_effect data su Hwfu Hr Hdata) as (Hwf2 & Hino & Hg & _ & Hblk).
  cbv zeta in Hwf2, Hino, Hg, Hblk.
  split; [done|]. split; [|done]. rewrite Hino. apply dict_get_set_eq.
Qed.

(** [q = (len + B - 1) // B] blocks hold [len] bytes, and a piece that
    starts inside the data has an index below [q]. *)
Lemma ceil_blocks len B :
  0 < B → 0 ≤ len →
  let q := (0 + len + B - 1) `div` B in
  0 ≤ q ∧ len ≤ q * B ∧ ∀ i, 0 ≤ i → i * B < len → i < q.
Proof.
  intros HB Hlen q.
  pose proof (Z.mul_div_le (0 + len + B - 1) B HB).
  pose proof (Z.mul_succ_div_gt (0 + len + B - 1) B HB).
  fold q in H, H0.
  assert (0 ≤ q) by (apply Z.div_pos; lia).
  split; [done|]. split; [lia|]. intros i Hi Hlt. nia.
Qed.

Lemma image_only_geometry s s' :
  image_only s s' →
  block_size (disk s') = block_size (disk s) ∧
  total_blocks (disk s') = total_blocks (disk s) ∧
  ∀ n, in_range (disk s') n = in_range (disk s) n.
Proof.
  intros (Hg & _ & _). split; [by apply geometry_block_size|].
  split; [by apply geometry_total_blocks|]. intros n. by apply geometry_in_range.
Qed.

Lemma free_not_used d b : free d b → ¬ used d b.
Proof. unfold free, used. congruence. Qed.

(** C1: a file that has just been created and is then written with the
    bytes [data] at offset 0 reads back as exactly [data], whatever its
    length: no byte of the padding of the last block, and nothing of the
    extra block the write allocates, is returned. *)
Theorem write_then_read_round_trip `{Runtime} (s s1 s2 : FileSystem.t) name now data :
  FileSystem.wf s →
  create_file name now s = (Ok true, s1) →
  write_file name data 0 s1 = (Ok true, s2) →
  read_file name s2 = (Ok (Some data), s2).
Proof.
  intros Hwf Hcreate Hwrite.
  destruct (create_file_inv _ _ _ _ Hwf Hcreate) as ([Hwf1 Hitb1] & Hr1 & Hused1 & Hget1).
  pose proof Hwf1 as (HB & Ht & _).
  set (B := block_size (disk s1)) in *. set (nB := Z.to_nat B).
  set (len := Z.of_nat (length data)).
  destruct (ceil_blocks len B HB ltac:(lia)) as (Hq0 & Hqlen & Hqi).
  set (q := (0 + len + B - 1) `div` B) in *.
  assert (∀ i : nat, (i * nB < length data)%nat → Z.of_nat i < q) as Hpiece_index.
  { intros i Hi. apply Hqi; [lia|]. unfold len, nB in *. nia. }
  (* the try block ran to its end *)
  unfold write_file in Hwrite.
  destruct (write_file_try name data 0 s1) as [r sx] eqn:Htry.
  assert (r = Ok true ∧ sx = s2) as [-> ->].
  { destruct r as [v|e]; [|destruct e; discriminate]. by injection Hwrite as -> ->. }
  unfold write_file_try in Htry.
  rewrite (bind_ok _ _ _ _ _ (get_inode_eq s1 name _ Hget1)) in Htry.
  rewrite (bind_ok _ _ _ _ _ (calculate_blocks_needed_eq s1 0 len ltac:(fold B; lia)))
    in Htry.
  fold B in Htry. rewrite Z.div_0_l in Htry by lia. fold q in Htry.
  apply bind_Ok_inv in Htry as (m & sa & Hens & Htry).
  (* allocation *)
  unfold _ensure_blocks_allocated in Hens.
  change (map_seqZ 0 (Inode.blocks (Inode.init name 0 now))) with (∅ : gmap Z Z) in Hens.
  destruct (allocate_missing_inv _ _ _ _ _ Hwf1 Hens)
    as (Hwfa & Hinoa & Hitba & Hga & _ & _ & Hdom & _ & Hnew & Hinj & _).
  assert (∀ i, is_Some (m !! i) ↔ 0 ≤ i < q + 1) as Hkeys.
  { intros i. rewrite Hdom, set_range_perm. unfold Py.range.
    rewrite elem_of_seqZ, lookup_empty, is_Some_alt. lia. }
  assert (∀ i p, m !! i = Some p →
            in_range (disk s1) p = true ∧ p ≠ 0 ∧ p ≠ 1) as Hphys.
  { intros i p Hp. destruct (Hnew i p) as (Hrange & Hfree & _);
      [apply lookup_empty|done|].
    split; [apply in_range_spec; lia|]. split; [lia|].
    intros ->. by apply (free_not_used _ _ Hfree). }
  (* the data *)
  destruct (write_loop_spec (length data) data m sa 0 B nB)
    as (sb & Hloop & Hwfb & Himgb & _ & Hpieces).
  { by rewrite (geometry_block_size _ _ Hga). }
  { done. }
  { done. }
  { lia. }
  { intros i _ Hi. destruct (proj2 (Hkeys (Z.of_nat i))) as [p Hp].
    { specialize (Hpiece_index i Hi). lia. }
    exists p. split; [done|]. rewrite (geometry_in_range _ _ _ Hga).
    by apply (Hphys _ _ Hp). }
  { intros i i' p _ _ _ _ Hi Hi'. apply Nat2Z.inj.
    by apply (Hinj _ _ p); try apply lookup_empty. }
  change (Z.of_nat ((0 * nB) `min` length data)) with 0 in Hloop.
  assert (_write_data_to_blocks data 0 m sa = (Ok tt, sb)) as Hwr.
  { unfold _write_data_to_blocks. rewrite bind_gets. simpl.
    by rewrite (geometry_block_size _ _ Hga). }
  rewrite (bind_ok _ _ _ _ _ Hwr) in Htry.
  apply bind_Ok_inv in Htry as ([] & s2' & Hupd & [= <-]).
  (* the inode *)
  destruct Himgb as (Hgb & Hitbb & Hinob).
  destruct (update_inode_inv sb name (Inode.init name 0 now) 0 len m s2')
    as ([Hwf2 Hitb2] & Hget2 & Hg2 & Hblk2).
  { split; [done|]. by rewrite Hitbb, Hitba. }
  { by rewrite Hinob, Hinoa. }
  { done. }
  assert (geometry (disk s2') = geometry (disk s1)) as Hgeo by congruence.
  assert (geometry (disk sb) = geometry (disk s1)) as Hgeob by congruence.
  set (inode2 := updated_inode 0 len m (Inode.init name 0 now)) in *.
  assert (Inode.blocks inode2 = (λ i, m !!! i) <$> seqZ 0 (q + 1)) as Hblocks.
  { unfold inode2, updated_inode. simpl. by rewrite (sorted_keys_dense m (q + 1)). }
  assert (Inode.size inode2 = Z.of_nat (length (@nil byte) + length data)) as Hsize.
  { unfold inode2, updated_inode. simpl. lia. }
  assert (∀ j b, Inode.blocks inode2 !! j = Some b →
            Z.of_nat j < q + 1 ∧ m !! Z.of_nat j = Some b) as Hbs.
  { intros j b. rewrite Hblocks, list_lookup_fmap.
    destruct (seqZ 0 (q + 1) !! j) as [i|] eqn:Hj; [|done].
    apply lookup_seqZ in Hj as [-> Hj]. simpl. intros [= <-].
    split; [done|]. rewrite Z.add_0_l.
    destruct (proj2 (Hkeys (Z.of_nat j))) as [p Hp]; [lia|].
    by rewrite (lookup_total_correct _ _ _ Hp). }
  (* reading back *)
  unfold read_file. rewrite bind_gets, Hget2.
  rewrite decide_False.
  2:{ intros Hnil. apply (f_equal length) in Hnil.
      rewrite Hblocks, length_fmap, length_seqZ in Hnil. simpl in Hnil. lia. }
  rewrite Hsize.
  rewrite (bind_ok _ _ _ (@nil byte ++ data) s2'); [done|].
  apply read_blocks_spec.
  - done.
  - apply Forall_lookup. intros j b Hj. destruct (Hbs j b Hj) as [_ Hm].
    rewrite (geometry_in_range _ _ _ Hgeo). by apply (Hphys _ _ Hm).
  - rewrite Hblocks, length_fmap, length_seqZ, (geometry_block_size _ _ Hgeo).
    fold B. unfold len in Hqlen. nia.
  - intros j b Hj. rewrite (geometry_block_size _ _ Hgeo). fold B. fold nB.
    destruct (Hbs j b Hj) as [_ Hm]. destruct (Hphys _ _ Hm) as (Hr & Hb0 & Hb1).
    cbv zeta.
    rewrite Hblk2 by (rewrite ?(geometry_in_range _ _ _ Hgeob); done).
    destruct (decide (j * nB < length data)%nat) as [Hin|Hout].
    + by apply Hpieces; [lia|done|done].
    + by rewrite drop_ge, take_nil by lia.
Qed.

Lemma write_then_read_round_trip_witness :
  let s := CPython.blank in
  let name := "a.txt"%string in
  let data := CPython.sample_data in
  let s1 := CPython.after (create_file name CPython.now) s in
  let s2 := CPython.after (write_file name data 0) s1 in
  FileSystem.wf s ∧
  fst (create_file name CPython.now s) = Ok true ∧
  fst (write_file name data 0 s1) = Ok true ∧
  fst (read_file name s2) = Ok (Some data).
Proof.
  intros s name data s1 s2.
  assert (FileSystem.wf s) as Hwf by by_evaluation.
  assert (fst (create_file name CPython.now s) = Ok true) as Hc
    by (vm_compute; reflexivity).
  assert (fst (write_file name data 0 s1) = Ok true) as Hw
    by (vm_compute; reflexivity).
  split; [exact Hwf|]. split; [exact Hc|]. split; [exact Hw|].
  rewrite (write_then_read_round_trip s s1 s2 name CPython.now data Hwf
             (run_eq _ _ _ Hc) (run_eq _ _ _ Hw)).
  reflexivity.
Defined.

(** ** Further properties *)

(** *** Inode records and their dictionary form *)

Lemma mapM_as_int blocks : mapM Inode.as_int (JInt <$> blocks) = Some blocks.
Proof.
  apply mapM_Some_2.
  induction blocks as [|b blocks IH]; [constructor|].
  rewrite fmap_cons. by constructor.
Qed.

Lemma from_dict_to_dict inode : Inode.from_dict (Inode.to_dict inode) = Some inode.
Proof.
  destruct inode as [name size blocks created type].
  unfold Inode.from_dict, Inode.to_dict.
  set (fields := [_; _; _; _; _]).
  assert (Dict.get fields "name" = Some (JStr name)) as -> by reflexivity.
  assert (Dict.get fields "size" = Some (JInt size)) as -> by reflexivity.
  assert (Dict.get fields "blocks" = Some (JList (JInt <$> blocks))) as ->
    by reflexivity.
  assert (Dict.get fields "created_time" = Some created) as -> by reflexivity.
  assert (Dict.get fields "type" = Some (JStr type)) as -> by reflexivity.
  cbn -[mapM fmap]. rewrite mapM_as_int. done.
Qed.

Lemma mapM_from_dict (table : list (string * Inode.t)) :
  mapM (λ '(name, data), pair name <$> Inode.from_dict data)
       (prod_map id Inode.to_dict <$> table) = Some table.
Proof.
  apply mapM_Some_2.
  induction table as [|[name inode] table IH]; [constructor|].
  rewrite fmap_cons. constructor; [|done].
  cbn -[Inode.from_dict Inode.to_dict]. by rewrite from_dict_to_dict.
Qed.

(** X1: what [save_inode_table] builds from the table
    ([to_dict] of every inode, under its name) is turned back into the
    same table, entry by entry and in the same order, by the
    comprehension of [load_inode_table] ([from_dict] of every value). *)
Theorem table_of_json_table_json `{Runtime} table :
  table_of_json (table_json table) = Some table.
Proof. unfold table_of_json, table_json. apply mapM_from_dict. Qed.

(** *** The device *)

(** X2: on a well-formed device, writing at most a block of data to a
    block in range succeeds; reading that block back gives the data
    followed by zero bytes up to the block size, and reading any other
    block gives what it gave before the write. *)
Theorem write_block_then_read (d : VirtualDisk.t) n data :
  VirtualDisk.wf d → in_range d n = true →
  Z.of_nat (length data) ≤ block_size d →
  ∃ d',
    write_block n data d = (Ok tt, d') ∧
    VirtualDisk.wf d' ∧ geometry d' = geometry d ∧
    read_block n d' =
      (Ok (data ++ replicate (Z.to_nat (block_size d) - length data) x00), d') ∧
    ∀ m, m ≠ n → fst (read_block m d') = fst (read_block m d).
Proof.
  intros Hwf Hn Hlen. pose proof Hwf as (HB & _).
  set (data' := data ++ replicate (Z.to_nat (block_size d) - length data) x00).
  assert (length data' = Z.to_nat (block_size d)) as Hlen'.
  { unfold data'. rewrite length_app, length_replicate. lia. }
  assert (write_block n data d = (Ok tt, stored n data' d)) as Hw.
  { unfold write_block. rewrite Hn. simpl.
    destruct (Z.ltb_spec (Z.of_nat (length data)) (block_size d)).
    - unfold data', stored.
      replace (Z.to_nat (block_size d - Z.of_nat (length data)))
        with (Z.to_nat (block_size d) - length data)%nat by lia.
      done.
    - rewrite (proj2 (Z.ltb_ge _ _)) by lia. unfold data'.
      replace (Z.to_nat (block_size d) - length data)%nat with 0%nat by lia.
      by rewrite app_nil_r. }
  exists (stored n data' d). split; [done|].
  split; [by apply stored_wf|]. split; [done|]. split.
  - rewrite read_block_in by done. by rewrite block_stored_eq.
  - intros m Hm. destruct (in_range d m) eqn:Hrm.
    + rewrite !read_block_in by done. simpl. by rewrite block_stored_ne.
    + by rewrite !read_block_out by done.
Qed.

Lemma write_block_then_read_witness :
  let d := CPython.blank_disk in
  let data := String.list_byte_of_string "Test data" in
  VirtualDisk.wf d ∧ in_range d 7 = true ∧
  Z.of_nat (length data) ≤ block_size d ∧
  ∃ d', write_block 7 data d = (Ok tt, d') ∧
        take 10 (match fst (read_block 7 d') with Ok b => b | Raise _ => [] end)
        = data ++ [x00].
Proof.
  intros d data.
  assert (VirtualDisk.wf d) as Hwf by by_evaluation.
  assert (in_range d 7 = true) as Hn by (vm_compute; reflexivity).
  assert (Z.of_nat (length data) ≤ block_size d) as Hlen by by_evaluation.
  split; [exact Hwf|]. split; [exact Hn|]. split; [exact Hlen|].
  destruct (write_block_then_read d 7 data Hwf Hn Hlen) as (d' & Hw & _ & _ & Hr & _).
  exists d'. split; [exact Hw|]. rewrite Hr. vm_compute. reflexivity.
Defined.

Lemma first_free_lowest bm cands b :
  first_free bm cands = Ok (Some b) →
  ∃ k, cands !! k = Some b ∧
       ∀ i c, (i < k)%nat → cands !! i = Some c → Py.getitem bm c ≠ Ok x00.
Proof.
  induction cands as [|c cands IH]; simpl; [done|].
  destruct (Py.getitem bm c) as [v|e] eqn:Hget; [|done].
  case_decide as Hv.
  - intros [= ->]. exists 0%nat. split; [done|]. intros i c' Hi. lia.
  - intros Hrest. destruct (IH Hrest) as (k & Hk & Hbefore).
    exists (S k). split; [done|]. intros [|i] c' Hi; simpl.
    + intros [= <-]. congruence.
    + apply Hbefore. lia.
Qed.

Lemma first_free_total bm cands :
  Forall (λ c, 0 ≤ c < Z.of_nat (length bm)) cands →
  ∃ r, first_free bm cands = Ok r.
Proof.
  induction cands as [|c cands IH]; intros Hin; simpl; [by eexists|].
  apply Forall_cons in Hin as [Hc Hin].
  rewrite getitem_nonneg by lia.
  destruct (lookup_lt_is_Some_2 bm (Z.to_nat c)) as [v ->]; [lia|].
  case_decide; [by eexists|by apply IH].
Qed.

(** X3: when the bitmap fits its block ([total_blocks <= block_size]),
    [get_free_block] on a well-formed device never raises and leaves the
    device as it is.  It answers the lowest block of [1 .. total_blocks-1]
    whose bitmap byte is 0 (never block 0), and [None] exactly when no
    such block exists. *)
Theorem get_free_block_lowest (d : VirtualDisk.t) :
  VirtualDisk.wf d → total_blocks d ≤ block_size d →
  ∃ r, get_free_block d = (Ok r, d) ∧
       match r with
       | Some b => 1 ≤ b < total_blocks d ∧ free d b ∧
                   ∀ b', 1 ≤ b' < b → ¬ free d b'
       | None => ∀ b', 1 ≤ b' < total_blocks d → ¬ free d b'
       end.
Proof.
  intros Hwf Hfit. pose proof Hwf as (HB & Ht & _).
  destruct (first_free_total (bitmap d) (Py.range 1 (total_blocks d))) as [r Hscan].
  { apply Forall_seqZ. intros c Hc. rewrite length_bitmap by done. lia. }
  assert (get_free_block d = (Ok r, d)) as Hrun.
  { unfold get_free_block.
    rewrite (bind_ok _ _ _ _ _ (read_block_in d 0 (in_range_0 d Hwf))).
    rewrite bind_gets. fold (bitmap d). by rewrite Hscan. }
  exists r. split; [done|].
  pose proof (get_free_block_inv _ _ _ Hrun) as [_ Hr].
  destruct r as [b|]; [|done]. destruct Hr as [Hb Hfree].
  split; [done|]. split; [done|]. intros b' Hb' Hfree'.
  destruct (first_free_lowest _ _ _ Hscan) as (k & Hk & Hbefore).
  apply lookup_seqZ in Hk as [Hk _].
  apply (Hbefore (Z.to_nat (b' - 1)) b').
  - lia.
  - apply lookup_seqZ. lia.
  - rewrite getitem_nonneg by lia. unfold free in Hfree'. by rewrite Hfree'.
Qed.

Lemma get_free_block_lowest_witness :
  let d := disk CPython.created in
  VirtualDisk.wf d ∧ total_blocks d ≤ block_size d ∧
  fst (get_free_block d) = Ok (Some 2).
Proof.
  intros d.
  assert (VirtualDisk.wf d) as Hwf by by_evaluation.
  assert (total_blocks d ≤ block_size d) as Hfit by by_evaluation.
  split; [exact Hwf|]. split; [exact Hfit|].
  destruct (get_free_block_lowest d Hwf Hfit) as (r & Hrun & _).
  assert (fst (get_free_block d) = Ok (Some 2)) as Hval by (vm_compute; reflexivity).
  exact Hval.
Defined.

(** X4: for an index [n] inside the bitmap block of a well-formed
    device, [is_block_used n] answers [True] after [mark_block_used n]
    and [False] after [mark_block_free n]; either mark leaves the answer
    for every other index, and every block other than block 0, as it
    was. *)
Theorem mark_then_query (d : VirtualDisk.t) n :
  VirtualDisk.wf d → 0 ≤ n < block_size d →
  ∃ du df,
    mark_block_used n d = (Ok tt, du) ∧ mark_block_free n d = (Ok tt, df) ∧
    is_block_used n du = (Ok true, du) ∧ is_block_used n df = (Ok false, df) ∧
    (∀ m, 0 ≤ m < block_size d → m ≠ n →
          fst (is_block_used m du) = fst (is_block_used m d) ∧
          fst (is_block_used m df) = fst (is_block_used m d)) ∧
    (∀ m, in_range d m = true → m ≠ 0 →
          block du m = block d m ∧ block df m = block d m).
Proof.
  intros Hwf Hn.
  assert (Z.to_nat n < length (bitmap d))%nat as Hlen
    by (rewrite length_bitmap by done; lia).
  eexists _, _.
  split; [by apply mark_block_used_in|]. split; [by apply mark_block_free_in|].
  pose proof (set_bitmap_wf d (Z.to_nat n) x01 Hwf) as Hwfu.
  pose proof (set_bitmap_wf d (Z.to_nat n) x00 Hwf) as Hwff.
  split_and!.
  - rewrite is_block_used_in by done. rewrite bitmap_set by done.
    rewrite list_lookup_insert_eq by done. by rewrite bool_decide_eq_true_2.
  - rewrite is_block_used_in by done. rewrite bitmap_set by done.
    rewrite list_lookup_insert_eq by done. by rewrite bool_decide_eq_false_2.
  - intros m Hm Hne. rewrite !is_block_used_in by done. simpl.
    rewrite !bitmap_set by done.
    by rewrite !list_lookup_insert_ne by lia.
  - intros m Hm Hne. by rewrite !set_bitmap_block by done.
Qed.

Lemma mark_then_query_witness :
  let d := CPython.blank_disk in
  VirtualDisk.wf d ∧ 0 ≤ 9 < block_size d ∧
  ∃ du, mark_block_used 9 d = (Ok tt, du) ∧ is_block_used 9 du = (Ok true, du).
Proof.
  intros d.
  assert (VirtualDisk.wf d) as Hwf by by_evaluation.
  assert (0 ≤ 9 < block_size d) as Hn by by_evaluation.
  split; [exact Hwf|]. split; [exact Hn|].
  destruct (mark_then_query d 9 Hwf Hn) as (du & df & Hu & _ & Hq & _).
  exists du. split; [exact Hu|exact Hq].
Defined.

(** X5: [delete_block] checks its index, which [mark_block_free] does
    not: outside [0, total_blocks) it raises the out-of-range
    [ValueError] and leaves the device as it is; inside (and inside the
    bitmap block) it succeeds and [is_block_used] then answers [False]
    for that block. *)
Theorem delete_block_checks_then_frees (d : VirtualDisk.t) n :
  VirtualDisk.wf d →
  (¬ (0 ≤ n < total_blocks d) →
   delete_block n d = (Raise (ValueError (OutOfRange n)), d)) ∧
  (0 ≤ n < total_blocks d → n < block_size d →
   ∃ d', delete_block n d = (Ok tt, d') ∧ is_block_used n d' = (Ok false, d')).
Proof.
  intros Hwf. split.
  - intros Hout. unfold delete_block.
    destruct (in_range d n) eqn:Hr; [by apply in_range_spec in Hr|done].
  - intros Hin HB. unfold delete_block.
    rewrite (proj2 (in_range_spec d n) Hin). simpl.
    destruct (mark_then_query d n Hwf ltac:(lia)) as (du & df & _ & Hf & _ & Hq & _).
    exists df. by split.
Qed.

Lemma delete_block_checks_then_frees_witness :
  let d := disk (CPython.written 0) in
  VirtualDisk.wf d ∧
  fst (is_block_used 3 d) = Ok true ∧
  ∃ d', delete_block 3 d = (Ok tt, d') ∧ is_block_used 3 d' = (Ok false, d').
Proof.
  intros d.
  assert (VirtualDisk.wf d) as Hwf by by_evaluation.
  split; [exact Hwf|]. split; [vm_compute; reflexivity|].
  destruct (delete_block_checks_then_frees d 3 Hwf) as [_ Hin].
  apply Hin; by_evaluation.
Defined.

(** X6: freeing a data block makes it available again: after
    [mark_block_free b] on a well-formed device whose bitmap fits its
    block, [get_free_block] answers a block, and one no higher than
    [b]. *)
Theorem freed_block_is_reused (d : VirtualDisk.t) b :
  VirtualDisk.wf d → total_blocks d ≤ block_size d →
  1 ≤ b < total_blocks d →
  ∃ d' b', mark_block_free b d = (Ok tt, d') ∧
           get_free_block d' = (Ok (Some b'), d') ∧ 1 ≤ b' ≤ b.
Proof.
  intros Hwf Hfit Hb.
  assert (Z.to_nat b < length (bitmap d))%nat as Hlen
    by (rewrite length_bitmap by done; lia).
  pose proof (set_bitmap_wf d (Z.to_nat b) x00 Hwf) as Hwf'.
  set (d' := stored 0 (<[Z.to_nat b:=x00]> (bitmap d)) d) in *.
  assert (free d' b) as Hfree.
  { unfold free, d'. rewrite bitmap_set by done. by apply list_lookup_insert_eq. }
  destruct (get_free_block_lowest d' Hwf' Hfit) as (r & Hrun & Hr).
  destruct r as [b'|].
  - exists d', b'. split; [apply mark_block_free_in; [done|lia]|].
    split; [done|]. destruct Hr as (Hb' & _ & Hlow).
    destruct (decide (b' ≤ b)); [lia|]. destruct (Hlow b); [lia|done].
  - by destruct (Hr b).
Qed.

Lemma freed_block_is_reused_witness :
  let d := disk (CPython.written 0) in
  VirtualDisk.wf d ∧ total_blocks d ≤ block_size d ∧ 1 ≤ 2 < total_blocks d ∧
  ∃ d' b', mark_block_free 2 d = (Ok tt, d') ∧
           get_free_block d' = (Ok (Some b'), d') ∧ 1 ≤ b' ≤ 2.
Proof.
  intros d.
  assert (VirtualDisk.wf d) as Hwf by by_evaluation.
  assert (total_blocks d ≤ block_size d) as Hfit by by_evaluation.
  assert (1 ≤ 2 < total_blocks d) as Hb by by_evaluation.
  split; [exact Hwf|]. split; [exact Hfit|]. split; [exact Hb|].
  exact (freed_block_is_reused d 2 Hwf Hfit Hb).
Defined.

(** X7: constructing a device where no image exists, with a positive
    block size no larger than the total size, succeeds.  The device is
    well formed, its image has [total_size_bytes] bytes, its bitmap marks
    block 0 alone, and every other block is all zeros. *)
Theorem init_creates_blank_image total bsz :
  0 < bsz ≤ total →
  ∃ d, VirtualDisk.init None total bsz = Ok d ∧
       VirtualDisk.wf d ∧
       geometry d = (total, bsz, total `div` bsz, 1) ∧
       Z.of_nat (length (image d)) = total ∧
       bitmap d = <[0%nat:=x01]> (replicate (Z.to_nat bsz) x00) ∧
       ∀ n, 1 ≤ n < total `div` bsz → block d n = replicate (Z.to_nat bsz) x00.
Proof.
  intros [HB HT]. unfold VirtualDisk.init. rewrite decide_False by lia.
  set (self := VirtualDisk.mk _ _ _ _ _).
  assert (1 ≤ total `div` bsz) as Ht.
  { pose proof (Z.div_le_mono bsz total bsz HB HT) as Hd.
    rewrite Z.div_same in Hd by lia. done. }
  assert (VirtualDisk.wf self) as Hwf.
  { split_and!; [done|done|]. simpl. rewrite length_replicate.
    pose proof (Z.mul_div_le total bsz HB). lia. }
  rewrite initializeBitmap_in by done.
  set (bm := <[0%nat:=x01]> (replicate (Z.to_nat (block_size self)) x00)).
  assert (length bm = Z.to_nat (block_size self)) as Hbm
    by (unfold bm; by rewrite length_insert, length_replicate).
  eexists. split; [done|]. split_and!.
  - apply stored_wf; [done|by apply in_range_0|done].
  - done.
  - simpl. unfold Py.file_write. rewrite length_file_write_at.
    + rewrite length_replicate. lia.
    + pose proof (stored_fits self 0 bm Hwf (in_range_0 self Hwf) Hbm). done.
  - apply block_stored_eq; [done|by apply in_range_0|done].
  - intros n Hn.
    assert (in_range self n = true) as Hr by (apply in_range_spec; simpl; lia).
    rewrite block_stored_ne by (done || by apply in_range_0 || lia).
    pose proof (block_inside self n Hwf Hr) as [Hlo Hhi].
    simpl in Hlo, Hhi. rewrite length_replicate in Hhi.
    apply list_eq. intros i.
    destruct (decide (i < Z.to_nat bsz)%nat) as [Hi|Hi].
    + rewrite lookup_block by done. simpl.
      rewrite !lookup_replicate_2 by lia. done.
    + rewrite lookup_block_ge by (simpl; lia).
      symmetry. apply lookup_replicate_None. lia.
Qed.

Lemma init_creates_blank_image_witness :
  0 < 4096 ≤ 1024 * 1024 ∧
  ∃ d, VirtualDisk.init None (1024 * 1024) 4096 = Ok d ∧ VirtualDisk.wf d ∧
       total_blocks d = 256.
Proof.
  assert (0 < 4096 ≤ 1024 * 1024) as H by lia.
  split; [exact H|].
  destruct (init_creates_blank_image (1024 * 1024) 4096 H) as (d & Hd & Hwf & Hg & _).
  exists d. split; [exact Hd|]. split; [exact Hwf|].
  unfold geometry in Hg. injection Hg as _ _ Ht _. rewrite Ht. reflexivity.
Defined.

(** X8: a device smaller than one block cannot be constructed: with
    [0 <= total_size_bytes < block_size_bytes] there is no block 0, and
    [__init__] raises the out-of-range [ValueError] when it writes the
    bitmap. *)
Theorem init_rejects_image_below_one_block (existing : option (list byte)) total bsz :
  0 ≤ total < bsz →
  VirtualDisk.init existing total bsz = Raise (ValueError (OutOfRange 0)).
Proof.
  intros [HT HB]. unfold VirtualDisk.init. rewrite decide_False by lia.
  set (self := VirtualDisk.mk _ _ _ _ _).
  unfold initializeBitmap. rewrite bind_gets.
  change (block_size self) with bsz.
  unfold Py.setitem. rewrite index_in by (rewrite length_replicate; lia).
  rewrite write_block_out; [done|].
  unfold in_range. change (total_blocks self) with (total `div` bsz).
  rewrite Z.div_small by lia. done.
Qed.

Lemma init_rejects_image_below_one_block_witness :
  0 ≤ 100 < 4096 ∧
  VirtualDisk.init None 100 4096 = Raise (ValueError (OutOfRange 0)).
Proof.
  assert (0 ≤ 100 < 4096) as H by lia.
  split; [exact H|]. exact (init_rejects_image_below_one_block None 100 4096 H).
Defined.

(** *** The inode table under create and write *)

Lemma dict_get_set_ne {V} (d : list (string * V)) k k' v :
  k' ≠ k → Dict.get (Dict.set d k v) k' = Dict.get d k'.
Proof.
  intros Hne. induction d as [|[k0 v0] d IH]; simpl.
  - by rewrite decide_False.
  - destruct (decide (k0 = k)) as [->|Hk0]; simpl.
    + by rewrite !decide_False by done.
    + destruct (decide (k0 = k')); [done|apply IH].
Qed.

Lemma dict_set_absent {V} (d : list (string * V)) k v :
  Dict.get d k = None → Dict.set d k v = d ++ [(k, v)].
Proof.
  induction d as [|[k0 v0] d IH]; simpl; [done|].
  destruct (decide (k0 = k)); [done|]. intros Hget. by rewrite IH.
Qed.

Lemma save_inode_table_image_only `{Runtime} s r s' :
  save_inode_table s = (r, s') → image_only s s'.
Proof.
  unfold save_inode_table. rewrite !bind_gets.
  intros [(? & s1 & Hw & Hm)|(e & Hw & ->)]%bind_inv.
  - eapply image_only_trans; [by eapply write_block_image_only|].
    by eapply mark_block_used_image_only.
  - by eapply write_block_image_only.
Qed.

(** X9: a [create_file] that returns [True] appends one inode of size 0
    with no blocks under the name, after the entries the table had; a
    second [create_file] of the same name returns [False] and changes
    nothing, whatever the time of the call. *)
Theorem create_file_twice `{Runtime} (s s1 : FileSystem.t) name now now' :
  create_file name now s = (Ok true, s1) →
  inodes s1 = inodes s ++ [(name, Inode.init name 0 now)] ∧
  Dict.get (inodes s) name = None ∧
  create_file name now' s1 = (Ok false, s1).
Proof.
  unfold create_file at 1. rewrite bind_gets.
  destruct (Dict.mem (inodes s) name) eqn:Hmem; [by intros [= ? ?]|].
  apply mem_false_get in Hmem. rewrite bind_modify.
  intros ([] & sx & Hsave & [= <-])%bind_Ok_inv.
  apply save_inode_table_image_only in Hsave as (_ & _ & Hino).
  simpl in Hino. rewrite dict_set_absent in Hino by done.
  split; [done|]. split; [done|].
  unfold create_file. rewrite bind_gets.
  assert (Dict.mem (inodes sx) name = true) as ->; [|done].
  unfold Dict.mem. apply bool_decide_eq_true_2.
  rewrite Hino, <- (dict_set_absent _ _ _ Hmem), dict_get_set_eq. by eexists.
Qed.

Lemma create_file_twice_witness :
  let s := CPython.blank in
  let s1 := CPython.created in
  fst (create_file "a.txt" CPython.now s) = Ok true ∧
  fst (create_file "a.txt" (JFloat "1730000001.25") s1) = Ok false.
Proof.
  intros s s1.
  assert (fst (create_file "a.txt" CPython.now s) = Ok true) as Hc
    by (vm_compute; reflexivity).
  split; [exact Hc|].
  destruct (create_file_twice s s1 "a.txt" CPython.now (JFloat "1730000001.25")
              (run_eq _ _ _ Hc)) as (_ & _ & ->).
  reflexivity.
Defined.

Lemma calculate_blocks_needed_inv `{Runtime} offset len s r s' :
  _calculate_blocks_needed offset len s = (r, s') → s' = s.
Proof.
  unfold _calculate_blocks_needed. rewrite bind_gets.
  case_decide; by intros [= _ <-].
Qed.

(** The steps of a [write_file] that returns [True]. *)
Lemma write_file_true_inv `{Runtime} s name data offset s' inode :
  Dict.get (inodes s) name = Some inode →
  write_file name data offset s = (Ok true, s') →
  ∃ ls m sa sb,
    _calculate_blocks_needed offset (Z.of_nat (length data)) s = (Ok ls, s) ∧
    allocate_missing ls (map_seqZ 0 (Inode.blocks inode)) s = (Ok m, sa) ∧
    _write_data_to_blocks data offset m sa = (Ok tt, sb) ∧
    image_only s sb ∧
    save_inode_table
      (set_inodes (Dict.set (inodes sb) name
                     (updated_inode offset (Z.of_nat (length data)) m inode)) sb)
    = (Ok tt, s').
Proof.
  intros Hget Hwrite. unfold write_file in Hwrite.
  destruct (write_file_try name data offset s) as [r sx] eqn:Htry.
  assert (r = Ok true ∧ sx = s') as [-> ->].
  { destruct r as [v|e]; [|destruct e; discriminate]. by injection Hwrite as -> ->. }
  unfold write_file_try in Htry.
  rewrite (bind_ok _ _ _ _ _ (get_inode_eq s name inode Hget)) in Htry.
  apply bind_Ok_inv in Htry as (ls & s0 & Hcalc & Htry).
  pose proof (calculate_blocks_needed_inv _ _ _ _ _ Hcalc) as ->.
  apply bind_Ok_inv in Htry as (m & sa & Hens & Htry).
  apply bind_Ok_inv in Htry as ([] & sb & Hwr & Htry).
  apply bind_Ok_inv in Htry as ([] & sc & Hupd & [= <-]).
  assert (image_only s sb) as Himg.
  { eapply image_only_trans; [by eapply allocate_missing_image_only|].
    unfold _write_data_to_blocks in Hwr. rewrite bind_gets in Hwr.
    by eapply write_loop_image_only. }
  exists ls, m, sa, sb. split_and!; try done.
  unfold _update_inode in Hupd. rewrite bind_gets in Hupd.
  destruct Himg as (_ & _ & Hino). rewrite Hino, Hget, bind_modify in Hupd.
  by rewrite Hino.
Qed.

(** X10: a [write_file] that returns [True] changes one entry of the
    table.  The written file's size becomes
    [max(old size, offset + len(data))], so it never shrinks, and its
    name, creation time and type stay; the inode of every other name is
    as it was. *)
Theorem write_file_updates_one_inode `{Runtime} (s s' : FileSystem.t)
    name data offset inode :
  Dict.get (inodes s) name = Some inode →
  write_file name data offset s = (Ok true, s') →
  ∃ inode',
    Dict.get (inodes s') name = Some inode' ∧
    Inode.size inode' = Inode.size inode `max` (offset + Z.of_nat (length data)) ∧
    Inode.size inode ≤ Inode.size inode' ∧
    Inode.name inode' = Inode.name inode ∧
    Inode.created_time inode' = Inode.created_time inode ∧
    Inode.type inode' = Inode.type inode ∧
    ∀ other, other ≠ name → Dict.get (inodes s') other = Dict.get (inodes s) other.
Proof.
  intros Hget Hwrite.
  destruct (write_file_true_inv _ _ _ _ _ _ Hget Hwrite)
    as (ls & m & sa & sb & _ & _ & _ & (_ & _ & Hino) & Hsave).
  apply save_inode_table_image_only in Hsave as (_ & _ & Hino').
  simpl in Hino'. rewrite Hino in Hino'.
  eexists. rewrite Hino'. split; [apply dict_get_set_eq|].
  split_and!; try done.
  - simpl. lia.
  - intros other Hne. by apply dict_get_set_ne.
Qed.

Lemma write_file_updates_one_inode_witness :
  let s := CPython.created in
  let s' := CPython.written 0 in
  Dict.get (inodes s) "a.txt" = Some (CPython.fresh_inode "a.txt") ∧
  fst (write_file "a.txt" [x41] 0 s) = Ok true ∧
  ∃ inode', Dict.get (inodes s') "a.txt" = Some inode' ∧ Inode.size inode' = 1.
Proof.
  intros s s'.
  assert (Dict.get (inodes s) "a.txt" = Some (CPython.fresh_inode "a.txt")) as Hget
    by (vm_compute; reflexivity).
  assert (fst (write_file "a.txt" [x41] 0 s) = Ok true) as Hw
    by (vm_compute; reflexivity).
  split; [exact Hget|]. split; [exact Hw|].
  destruct (write_file_updates_one_inode s s' "a.txt" [x41] 0 _ Hget (run_eq _ _ _ Hw))
    as (inode' & Hget' & Hsize & _).
  exists inode'. split; [exact Hget'|]. rewrite Hsize. reflexivity.
Defined.

(** *** The block list under write *)

Lemma allocate_missing_dom ls : ∀ m s m' s',
  allocate_missing ls m s = (Ok m', s') →
  ∀ i, is_Some (m' !! i) ↔ i ∈ ls ∨ is_Some (m !! i).
Proof.
  induction ls as [|l ls IH]; intros m s m' s'; simpl.
  - intros [= <- <-] i. rewrite elem_of_nil. tauto.
  - destruct (m !! l) as [p|] eqn:Hml.
    + intros Hrun i. rewrite (IH _ _ _ _ Hrun), elem_of_cons.
      split; [tauto|]. intros [[->|?]|?]; [right; by rewrite Hml|tauto|tauto].
    + intros (nb & s1 & Ha & Hrest)%bind_Ok_inv.
      destruct nb as [nb|]; [|done].
      apply bind_Ok_inv in Hrest as ([] & s2 & _ & Hrest).
      intros i. rewrite (IH _ _ _ _ Hrest), elem_of_cons.
      destruct (decide (l = i)) as [->|Hne].
      * rewrite lookup_insert_eq. split; [intros _; left; by left|intros _; by right].
      * rewrite lookup_insert_ne by done. split; [tauto|].
        intros [[->|?]|?]; [done|tauto|tauto].
Qed.

(** A write that starts inside the block list or right after it leaves
    a mapping whose keys are [0 .. n-1], [n] being the larger of the old
    length and the end of the needed range. *)
Lemma write_file_mapping `{Runtime} s s' name data offset inode :
  0 < block_size (disk s) → 0 ≤ offset →
  Dict.get (inodes s) name = Some inode →
  write_file name data offset s = (Ok true, s') →
  offset `div` block_size (disk s) ≤ Z.of_nat (length (Inode.blocks inode)) →
  let n := Z.of_nat (length (Inode.blocks inode)) `max`
           ((offset + Z.of_nat (length data) + block_size (disk s) - 1)
              `div` block_size (disk s) + 1) in
  ∃ m sa inode',
    allocate_missing
      (set_range (offset `div` block_size (disk s))
         ((offset + Z.of_nat (length data) + block_size (disk s) - 1)
            `div` block_size (disk s) + 1))
      (map_seqZ 0 (Inode.blocks inode)) s = (Ok m, sa) ∧
    Dict.get (inodes s') name = Some inode' ∧
    Inode.size inode' = Inode.size inode `max` (offset + Z.of_nat (length data)) ∧
    Inode.blocks inode' = (λ i, m !!! i) <$> seqZ 0 n ∧
    ∀ i, is_Some (m !! i) ↔ 0 ≤ i < n.
Proof.
  intros HB Hoff Hget Hwrite Hstart n.
  destruct (write_file_true_inv _ _ _ _ _ _ Hget Hwrite)
    as (ls & m & sa & sb & Hcalc & Halloc & _ & (_ & _ & Hino) & Hsave).
  rewrite calculate_blocks_needed_eq in Hcalc by lia. injection Hcalc as <-.
  apply save_inode_table_image_only in Hsave as (_ & _ & Hino').
  simpl in Hino'. rewrite Hino in Hino'.
  set (B := block_size (disk s)) in *.
  set (e := (offset + Z.of_nat (length data) + B - 1) `div` B) in *.
  assert (0 ≤ offset `div` B) by (apply Z.div_pos; lia).
  assert (offset `div` B ≤ e) by (apply Z.div_le_mono; lia).
  assert (∀ i, is_Some (m !! i) ↔ 0 ≤ i < n) as Hkeys.
  { intros i. rewrite (allocate_missing_dom _ _ _ _ _ Halloc i).
    rewrite set_range_perm. unfold Py.range.
    rewrite elem_of_seqZ, lookup_map_seqZ_is_Some. unfold n. lia. }
  exists m, sa, (updated_inode offset (Z.of_nat (length data)) m inode).
  split; [done|]. split; [rewrite Hino'; apply dict_get_set_eq|].
  split; [done|]. split; [|done].
  unfold updated_inode. simpl. by rewrite (sorted_keys_dense m n).
Qed.

(** X11: [ceil(size / B) <= len(blocks)] is kept by a [write_file] that
    returns [True] when the write starts inside the block list or right
    after it ([offset // B <= len(blocks)]): the block list then has
    [max(len(blocks), ceil((offset + len(data)) / B) + 1)] entries. *)
Theorem write_without_gap_keeps_size_within_blocks `{Runtime} (s s' : FileSystem.t)
    name data offset inode :
  0 < block_size (disk s) → 0 ≤ offset →
  Dict.get (inodes s) name = Some inode →
  write_file name data offset s = (Ok true, s') →
  offset `div` block_size (disk s) ≤ Z.of_nat (length (Inode.blocks inode)) →
  (Inode.size inode + block_size (disk s) - 1) `div` block_size (disk s)
    ≤ Z.of_nat (length (Inode.blocks inode)) →
  ∃ inode',
    Dict.get (inodes s') name = Some inode' ∧
    (Inode.size inode' + block_size (disk s) - 1) `div` block_size (disk s)
      ≤ Z.of_nat (length (Inode.blocks inode')) ∧
    Z.of_nat (length (Inode.blocks inode')) =
      Z.of_nat (length (Inode.blocks inode)) `max`
      ((offset + Z.of_nat (length data) + block_size (disk s) - 1)
         `div` block_size (disk s) + 1).
Proof.
  intros HB Hoff Hget Hwrite Hstart Hinv.
  destruct (write_file_mapping s s' name data offset inode HB Hoff Hget Hwrite Hstart)
    as (m & sa & inode' & _ & Hget' & Hsize & Hblocks & _).
  exists inode'. split; [done|].
  rewrite Hblocks, length_fmap, length_seqZ, Hsize.
  set (B := block_size (disk s)) in *.
  set (e := (offset + Z.of_nat (length data) + B - 1) `div` B) in *.
  set (L := Z.of_nat (length (Inode.blocks inode))) in *.
  assert (0 ≤ L) by (unfold L; lia).
  split; [|lia].
  destruct (Z.max_spec (Inode.size inode) (offset + Z.of_nat (length data)))
    as [[_ ->]|[_ ->]]; fold e; lia.
Qed.

Lemma write_without_gap_keeps_size_within_blocks_witness :
  let s := CPython.written 0 in
  let inode := Inode.set_size 1 (Inode.set_blocks [2; 3] (CPython.fresh_inode "a.txt")) in
  let data := CPython.sample_data in
  Dict.get (inodes s) "a.txt" = Some inode ∧
  fst (write_file "a.txt" data 1 s) = Ok true ∧
  ∃ inode', Dict.get (inodes (CPython.after (write_file "a.txt" data 1) s)) "a.txt"
            = Some inode' ∧
            Z.of_nat (length (Inode.blocks inode')) = 4.
Proof.
  intros s inode data.
  assert (Dict.get (inodes s) "a.txt" = Some inode) as Hget by (vm_compute; reflexivity).
  assert (fst (write_file "a.txt" data 1 s) = Ok true) as Hw by (vm_compute; reflexivity).
  split; [exact Hget|]. split; [exact Hw|].
  destruct (write_without_gap_keeps_size_within_blocks s
              (CPython.after (write_file "a.txt" data 1) s) "a.txt" data 1 inode)
    as (inode' & Hget' & _ & Hlen);
    [by_evaluation|by_evaluation|exact Hget|exact (run_eq _ _ _ Hw)|
     by_evaluation|by_evaluation|].
  exists inode'. split; [exact Hget'|]. rewrite Hlen. vm_compute. reflexivity.
Defined.

(** X12: under the same condition on the offset, a [write_file] that
    returns [True] on a well-formed device only extends the block list:
    the old blocks stay where they were, and the blocks added after them
    are pairwise different, lie in [1, total_blocks) and were free in
    the bitmap before the write. *)
Theorem write_extends_block_list `{Runtime} (s s' : FileSystem.t)
    name data offset inode :
  VirtualDisk.wf (disk s) → 0 ≤ offset →
  Dict.get (inodes s) name = Some inode →
  write_file name data offset s = (Ok true, s') →
  offset `div` block_size (disk s) ≤ Z.of_nat (length (Inode.blocks inode)) →
  ∃ inode',
    Dict.get (inodes s') name = Some inode' ∧
    take (length (Inode.blocks inode)) (Inode.blocks inode') = Inode.blocks inode ∧
    (∀ j p, (length (Inode.blocks inode) ≤ j)%nat →
            Inode.blocks inode' !! j = Some p →
            1 ≤ p < total_blocks (disk s) ∧ free (disk s) p) ∧
    NoDup (drop (length (Inode.blocks inode)) (Inode.blocks inode')).
Proof.
  intros Hwf Hoff Hget Hwrite Hstart. pose proof Hwf as (HB & _).
  destruct (write_file_mapping s s' name data offset inode HB Hoff Hget Hwrite Hstart)
    as (m & sa & inode' & Halloc & Hget' & _ & Hblocks & Hkeys).
  destruct (allocate_missing_inv _ _ _ _ _ Hwf Halloc)
    as (_ & _ & _ & _ & _ & _ & _ & Hold & Hnew & Hinj & _).
  set (bs := Inode.blocks inode) in *.
  set (n := _ `max` _) in Hblocks, Hkeys.
  assert (Z.of_nat (length bs) ≤ n) as HLn by (unfold n; lia).
  assert (∀ j p, Inode.blocks inode' !! j = Some p → m !! Z.of_nat j = Some p) as Hbs.
  { intros j p. rewrite Hblocks, list_lookup_fmap.
    destruct (seqZ 0 n !! j) as [i|] eqn:Hj; [|done].
    apply lookup_seqZ in Hj as [-> Hj]. simpl. intros [= <-].
    rewrite Z.add_0_l.
    destruct (proj2 (Hkeys (Z.of_nat j))) as [p Hp]; [lia|].
    by rewrite (lookup_total_correct _ _ _ Hp). }
  assert (∀ j : nat, (map_seqZ 0 bs : gmap Z Z) !! Z.of_nat j = bs !! j) as Hseed.
  { intros j. rewrite lookup_map_seqZ_0 by lia. by rewrite Nat2Z.id. }
  exists inode'. split; [done|]. split_and!.
  - apply list_eq. intros j.
    destruct (decide (j < length bs)%nat) as [Hj|Hj].
    + rewrite lookup_take_lt by done.
      destruct (lookup_lt_is_Some_2 bs j Hj) as [v Hv]. rewrite Hv.
      rewrite Hblocks, list_lookup_fmap, lookup_seqZ_lt by lia. simpl.
      rewrite Z.add_0_l. f_equal. apply lookup_total_correct, Hold.
      by rewrite Hseed.
    + rewrite lookup_take_ge by lia. symmetry. apply lookup_ge_None_2. lia.
  - intros j p Hj Hp. apply Hbs in Hp.
    destruct (Hnew (Z.of_nat j) p) as (Hrange & Hfree & _); [|done|done].
    rewrite Hseed. apply lookup_ge_None_2. done.
  - apply NoDup_alt. intros i j p. rewrite !lookup_drop. intros Hi Hj.
    apply Hbs in Hi, Hj.
    assert (Z.of_nat (length bs + i) = Z.of_nat (length bs + j)); [|lia].
    apply (Hinj _ _ p); try done;
      rewrite Hseed; apply lookup_ge_None_2; lia.
Qed.

Lemma write_extends_block_list_witness :
  let s := CPython.written 0 in
  let inode := Inode.set_size 1 (Inode.set_blocks [2; 3] (CPython.fresh_inode "a.txt")) in
  let data := CPython.sample_data in
  let s' := CPython.after (write_file "a.txt" data 1) s in
  VirtualDisk.wf (disk s) ∧
  Dict.get (inodes s) "a.txt" = Some inode ∧
  fst (write_file "a.txt" data 1 s) = Ok true ∧
  Inode.blocks <$> Dict.get (inodes s') "a.txt" = Some [2; 3; 4; 5].
Proof.
  intros s inode data s'.
  assert (VirtualDisk.wf (disk s)) as Hwf by by_evaluation.
  assert (Dict.get (inodes s) "a.txt" = Some inode) as Hget by (vm_compute; reflexivity).
  assert (fst (write_file "a.txt" data 1 s) = Ok true) as Hw by (vm_compute; reflexivity).
  split; [exact Hwf|]. split; [exact Hget|]. split; [exact Hw|].
  destruct (write_extends_block_list s s' "a.txt" data 1 inode Hwf)
    as (inode' & Hget' & _);
    [by_evaluation|exact Hget|exact (run_eq _ _ _ Hw)|by_evaluation|].
  vm_compute. reflexivity.
Defined.

Lemma dict_get_del_ne {V} (d : list (string * V)) k k' :
  k ≠ k' → Dict.get (Dict.del d k) k' = Dict.get d k'.
Proof.
  intros Hne. induction d as [|[k0 v0] d IH]; simpl; [done|].
  destruct (decide (k0 = k)) as [->|Hk0]; simpl.
  - by destruct (decide (k = k')).
  - by rewrite IH.
Qed.

Lemma dict_get_None {V} (d : list (string * V)) k :
  k ∉ d.*1 → Dict.get d k = None.
Proof.
  induction d as [|[k0 v0] d IH]; simpl; [done|].
  intros [Hne Hk]%not_elem_of_cons.
  destruct (decide (k0 = k)); [congruence|by apply IH].
Qed.

Lemma dict_get_del_eq {V} (d : list (string * V)) k :
  NoDup d.*1 → Dict.get (Dict.del d k) k = None.
Proof.
  induction d as [|[k0 v0] d IH]; simpl; [done|].
  intros [Hk0 Hnd]%NoDup_cons.
  destruct (decide (k0 = k)) as [->|Hne]; simpl.
  - by apply dict_get_None.
  - destruct (decide (k0 = k)); [done|by apply IH].
Qed.

(** The loop of [delete_file], when it completes over block numbers
    that are not negative. *)
Lemma free_blocks_inv bs : ∀ s s',
  VirtualDisk.wf (disk s) → Forall (λ b, 0 ≤ b) bs →
  free_blocks bs s = (Ok tt, s') →
  VirtualDisk.wf (disk s') ∧ image_only s s' ∧
  (∀ b, b ∈ bs → free (disk s') b) ∧
  (∀ b, 0 ≤ b → b ∉ bs →
        bitmap (disk s') !! Z.to_nat b = bitmap (disk s) !! Z.to_nat b) ∧
  (∀ n, in_range (disk s) n = true → n ≠ 0 →
        block (disk s') n = block (disk s) n).
Proof.
  induction bs as [|b bs IH]; intros s s' Hwf Hpos; simpl.
  - intros [= <-]. split_and!; try done. by intros b ?%not_elem_of_nil.
  - apply Forall_cons in Hpos as [Hb Hpos].
    intros ([] & s1 & (d1 & Hm & ->)%on_disk_inv & Hrest)%bind_Ok_inv.
    apply set_bitmap_byte_inv in Hm as [HbB ->]; [|done|done].
    set (s1 := set_disk _ s) in Hrest.
    assert (VirtualDisk.wf (disk s1)) as Hwf1 by by apply set_bitmap_wf.
    assert (bitmap (disk s1) = <[Z.to_nat b:=x00]> (bitmap (disk s))) as Hbm1
      by by apply bitmap_set.
    destruct (IH s1 s' Hwf1 Hpos Hrest) as (Hwf' & Himg & Hfree & Hkeep & Hblk).
    split; [done|]. split; [exact Himg|]. split_and!.
    + intros b' Hb'. destruct (decide (b' ∈ bs)) as [Hin|Hout]; [by apply Hfree|].
      apply elem_of_cons in Hb' as [->|?]; [|done].
      unfold free. rewrite (Hkeep b Hb Hout), Hbm1.
      apply list_lookup_insert_eq. rewrite length_bitmap by done. lia.
    + intros b' Hb' [Hne Hout]%not_elem_of_cons.
      rewrite (Hkeep b' Hb' Hout), Hbm1.
      apply list_lookup_insert_ne. lia.
    + intros n Hn Hn0. rewrite Hblk; [by apply set_bitmap_block|done|done].
Qed.

(** X13: a [delete_file] that returns [True] on an engine whose table
    names each file once removes that one entry of the table, clears the
    bitmap byte of every block of the file (block 1 apart, which the
    save marks used again), keeps every other bitmap byte, and leaves
    the content of every data block, the file's own included, in the
    image. *)
Theorem delete_file_frees_blocks `{Runtime} (s s' : FileSystem.t) name inode :
  FileSystem.wf s → NoDup (inodes s).*1 →
  Dict.get (inodes s) name = Some inode →
  Forall (λ b, 0 ≤ b) (Inode.blocks inode) →
  delete_file name s = (Ok true, s') →
  (∀ name', Dict.get (inodes s') name' =
            if decide (name' = name) then None else Dict.get (inodes s) name') ∧
  (∀ b, b ∈ Inode.blocks inode → b ≠ 1 → free (disk s') b) ∧
  used (disk s') 1 ∧
  (∀ b, 0 ≤ b → b ∉ Inode.blocks inode → b ≠ 1 →
        bitmap (disk s') !! Z.to_nat b = bitmap (disk s) !! Z.to_nat b) ∧
  (∀ n, in_range (disk s) n = true → n ≠ 0 → n ≠ 1 →
        block (disk s') n = block (disk s) n).
Proof.
  intros [Hwf Hitb] Hnd Hget Hpos. unfold delete_file.
  rewrite bind_gets, Hget.
  intros ([] & s1 & Hfree & Hrest)%bind_Ok_inv.
  destruct (free_blocks_inv _ _ _ Hwf Hpos Hfree)
    as (Hwf1 & (Hg1 & Hitb1 & Hino1) & Hfreed & Hkeep & Hblk).
  rewrite bind_gets, bind_modify in Hrest.
  set (s2 := set_inodes _ s1) in Hrest.
  assert (FileSystem.wf s2) as Hwf2 by (split; [exact Hwf1|by rewrite <- Hitb]).
  apply bind_Ok_inv in Hrest as ([] & sx & Hsave & [= <-]).
  apply save_inode_table_inv in Hsave as (Hr & HB & data & Hdata & ->); [|done].
  destruct (after_save_effect data s2 Hwf2 Hr Hdata) as (_ & Hino & Hg & Hbm & Hblk').
  cbv zeta in Hino, Hg, Hbm, Hblk'.
  change (disk s2) with (disk s1) in *.
  split_and!.
  - intros name'. rewrite Hino. simpl. rewrite Hino1.
    destruct (decide (name' = name)) as [->|Hne].
    + by apply dict_get_del_eq.
    + by apply dict_get_del_ne.
  - intros b Hb Hb1. unfold free. rewrite Hbm.
    rewrite list_lookup_insert_ne; [by apply Hfreed|].
    rewrite Forall_forall in Hpos. specialize (Hpos b Hb). lia.
  - unfold used. rewrite Hbm. apply list_lookup_insert_eq.
    rewrite length_bitmap by done. lia.
  - intros b Hb Hout Hb1. rewrite Hbm.
    rewrite list_lookup_insert_ne by lia. by apply Hkeep.
  - intros n Hn Hn0 Hn1. rewrite Hblk'; [by apply Hblk| |done|done].
    by rewrite (geometry_in_range _ _ _ Hg1).
Qed.

Lemma delete_file_frees_blocks_witness :
  let s := CPython.written 0 in
  let inode := Inode.set_size 1 (Inode.set_blocks [2; 3] (CPython.fresh_inode "a.txt")) in
  let s' := CPython.after (delete_file "a.txt") s in
  FileSystem.wf s ∧ NoDup (inodes s).*1 ∧
  Dict.get (inodes s) "a.txt" = Some inode ∧
  fst (delete_file "a.txt" s) = Ok true ∧
  free (disk s') 2 ∧ free (disk s') 3 ∧
  block (disk s') 2 = block (disk s) 2.
Proof.
  intros s inode s'.
  assert (FileSystem.wf s) as Hwf by by_evaluation.
  assert (NoDup (inodes s).*1) as Hnd by by_evaluation.
  assert (Dict.get (inodes s) "a.txt" = Some inode) as Hget by (vm_compute; reflexivity).
  assert (fst (delete_file "a.txt" s) = Ok true) as Hd by (vm_compute; reflexivity).
  assert (Forall (λ b, 0 ≤ b) (Inode.blocks inode)) as Hpos by by_evaluation.
  split; [exact Hwf|]. split; [exact Hnd|]. split; [exact Hget|]. split; [exact Hd|].
  destruct (delete_file_frees_blocks s s' "a.txt" inode Hwf Hnd Hget Hpos
              (run_eq _ _ _ Hd)) as (_ & Hfreed & _ & _ & Hblk).
  split; [apply Hfreed; [by_evaluation|lia]|].
  split; [apply Hfreed; [by_evaluation|lia]|].
  apply Hblk; [by_evaluation|lia|lia].
Defined.

(** The loop of [read_file] over blocks of the device: it appends what
    is left of [inode_size] from the blocks, in their order. *)
Lemma read_blocks_prefix bs : ∀ acc inode_size s,
  VirtualDisk.wf (disk s) →
  Forall (λ b, in_range (disk s) b = true) bs →
  Z.of_nat (length acc) ≤ inode_size →
  read_blocks inode_size bs acc s =
    (Ok (acc ++ take (Z.to_nat (inode_size - Z.of_nat (length acc)))
                     (mjoin (block (disk s) <$> bs))), s).
Proof.
  induction bs as [|b bs IH]; intros acc inode_size s Hwf Hin Hacc; simpl.
  - by rewrite take_nil, app_nil_r.
  - apply Forall_cons in Hin as [Hb Hin]. pose proof Hwf as (HB & _).
    rewrite (bind_ok _ _ _ _ _ (on_disk_read_block s b Hb)).
    rewrite (bind_ok _ _ _ _ _ (get_block_size_eq s)).
    pose proof (length_block _ _ Hwf Hb) as Hblk.
    destruct (Z.ltb_spec inode_size (Z.of_nat (length acc) + block_size (disk s)))
      as [Hlast|Hmore].
    + unfold Py.slice_to. rewrite (proj2 (Z.ltb_ge _ _)) by lia.
      rewrite IH; [|done|done|rewrite length_app, length_take; lia].
      rewrite length_app, length_take.
      replace (Z.to_nat (inode_size - Z.of_nat (_ + _))) with 0%nat by lia.
      rewrite take_0, app_nil_r. f_equal. f_equal. f_equal.
      rewrite take_app_le by lia. done.
    + rewrite IH; [|done|done|rewrite length_app; lia].
      rewrite <- app_assoc. f_equal. f_equal. f_equal.
      rewrite length_app.
      rewrite (take_app_ge (block (disk s) b)) by lia. f_equal. f_equal. lia.
Qed.

(** X14: on a well-formed device, for a file whose size is not negative
    and whose blocks are blocks of the device, [read_file] changes
    nothing and returns the first [size] bytes of the file's blocks laid
    end to end: [min(size, len(blocks) * block_size)] bytes, so a size
    beyond the blocks is not padded. *)
Theorem read_file_is_prefix_of_blocks `{Runtime} (s : FileSystem.t) name inode :
  VirtualDisk.wf (disk s) →
  Dict.get (inodes s) name = Some inode →
  0 ≤ Inode.size inode →
  Forall (λ b, in_range (disk s) b = true) (Inode.blocks inode) →
  let content := mjoin (block (disk s) <$> Inode.blocks inode) in
  read_file name s = (Ok (Some (take (Z.to_nat (Inode.size inode)) content)), s) ∧
  Z.of_nat (length (take (Z.to_nat (Inode.size inode)) content)) =
    Inode.size inode `min`
    (Z.of_nat (length (Inode.blocks inode)) * block_size (disk s)).
Proof.
  intros Hwf Hget Hsize Hin content. split.
  - unfold read_file. rewrite bind_gets, Hget.
    destruct (decide (Inode.blocks inode = [])) as [Hnil|Hne].
    + subst content. rewrite Hnil. simpl. by rewrite take_nil.
    + rewrite (bind_ok _ _ _ _ _
        (read_blocks_prefix _ [] (Inode.size inode) s Hwf Hin ltac:(simpl; lia))).
      simpl. by rewrite Z.sub_0_r.
  - assert (length content =
            (length (Inode.blocks inode) * Z.to_nat (block_size (disk s)))%nat) as Hlen.
    { subst content. induction Hin as [|b bs Hb Hin IH]; [done|].
      change (mjoin (block (disk s) <$> b :: bs))
        with (block (disk s) b ++ mjoin (block (disk s) <$> bs)).
      rewrite length_app, IH. simpl. f_equal.
      pose proof (length_block _ _ Hwf Hb). lia. }
    rewrite length_take, Hlen. destruct Hwf as (HB & _). nia.
Qed.

Lemma read_file_is_prefix_of_blocks_witness :
  let s := CPython.written 0 in
  let inode := Inode.set_size 1 (Inode.set_blocks [2; 3] (CPython.fresh_inode "a.txt")) in
  VirtualDisk.wf (disk s) ∧
  Dict.get (inodes s) "a.txt" = Some inode ∧
  fst (read_file "a.txt" s) = Ok (Some [x41]).
Proof.
  intros s inode.
  assert (VirtualDisk.wf (disk s)) as Hwf by by_evaluation.
  assert (Dict.get (inodes s) "a.txt" = Some inode) as Hget by (vm_compute; reflexivity).
  split; [exact Hwf|]. split; [exact Hget|].
  destruct (read_file_is_prefix_of_blocks s "a.txt" inode Hwf Hget) as [Hread _];
    [vm_compute; discriminate|by_evaluation|].
  rewrite Hread. vm_compute. reflexivity.
Defined.

(** *** The table on the device *)

Lemma rstrip_nul_replicate k : Py.rstrip_nul (replicate k x00) = [].
Proof. induction k as [|k IH]; simpl; [done|]. by rewrite IH. Qed.

Lemma rstrip_nul_padded l k : Py.rstrip_nul (l ++ replicate k x00) = Py.rstrip_nul l.
Proof.
  induction l as [|b l IH]; simpl; [apply rstrip_nul_replicate|]. by rewrite IH.
Qed.

Lemma rstrip_nul_id l : last l ≠ Some x00 → Py.rstrip_nul l = l.
Proof.
  induction l as [|b l IH]; [done|]. destruct l as [|c l].
  - simpl. intros Hb. destruct (decide (b = x00)); [congruence|done].
  - intros Hlast. change (last (b :: c :: l)) with (last (c :: l)) in Hlast.
    change (Py.rstrip_nul (b :: c :: l))
      with (match Py.rstrip_nul (c :: l) with
            | [] => if decide (b = x00) then [] else [b]
            | r => b :: r
            end).
    by rewrite (IH Hlast).
Qed.

Lemma write_block_padded d n data :
  in_range d n = true → Z.of_nat (length data) ≤ block_size d →
  write_block n data d =
    (Ok tt, stored n (data ++ replicate (Z.to_nat (block_size d) - length data) x00) d).
Proof.
  intros Hn Hlen. unfold write_block. rewrite Hn. simpl.
  destruct (Z.ltb_spec (Z.of_nat (length data)) (block_size d)).
  - replace (Z.to_nat (block_size d - Z.of_nat (length data)))
      with (Z.to_nat (block_size d) - length data)%nat by lia.
    done.
  - rewrite (proj2 (Z.ltb_ge _ _)) by lia.
    replace (Z.to_nat (block_size d) - length data)%nat with 0%nat by lia.
    by rewrite app_nil_r.
Qed.

(** X15: what is saved is what is loaded.  On a well-formed engine with
    a block 1, when the serialised table fits a block, is not empty,
    does not end in a zero byte, and [json.loads] reads it back as the
    value that [json.dumps] was given, [save_inode_table] succeeds and
    keeps the table, and a [load_inode_table] afterwards, whatever table
    the object holds by then, sets the saved table again and changes
    nothing else. *)
Theorem save_then_load_restores_table `{Runtime} (s : FileSystem.t) :
  FileSystem.wf s → in_range (disk s) 1 = true → 1 < block_size (disk s) →
  let text := json_dumps (table_json (inodes s)) in
  Z.of_nat (length text) ≤ block_size (disk s) →
  text ≠ [] → last text ≠ Some x00 →
  json_loads text = Some (table_json (inodes s)) →
  ∃ s', save_inode_table s = (Ok tt, s') ∧
        inodes s' = inodes s ∧
        ∀ table, load_inode_table (set_inodes table s') = (Ok tt, s').
Proof.
  intros [Hwf Hitb] Hr HB text Hfit Hne Hlast Hloads.
  set (data := text ++ replicate (Z.to_nat (block_size (disk s)) - length text) x00).
  assert (length data = Z.to_nat (block_size (disk s))) as Hlen.
  { unfold data. rewrite length_app, length_replicate. lia. }
  assert (VirtualDisk.wf (stored 1 data (disk s))) as Hwf1 by by apply stored_wf.
  exists (after_save data s). split; [|split; [done|]].
  - unfold save_inode_table. rewrite !bind_gets, Hitb.
    fold (table_json (inodes s)). fold text.
    rewrite (bind_ok _ _ _ _ _
      (on_disk_eq _ _ _ _ (write_block_padded (disk s) 1 text Hr Hfit))).
    fold data.
    erewrite on_disk_eq; [done|].
    rewrite mark_block_used_in; [done|done|simpl; lia].
  - intros table. unfold load_inode_table.
    set (s' := after_save data s).
    assert (in_range (disk s') 1 = true) as Hr' by exact Hr.
    assert (block (disk s') 1 = data) as Hblk.
    { unfold s', after_save. simpl.
      rewrite set_bitmap_block; [|done|done|done].
      by apply block_stored_eq. }
    rewrite bind_gets.
    change (inode_table_block (set_inodes table s')) with (inode_table_block s).
    rewrite Hitb.
    rewrite (bind_ok _ _ _ _ _ (on_disk_read_block (set_inodes table s') 1 Hr')).
    change (disk (set_inodes table s')) with (disk s').
    assert (Py.rstrip_nul data = text) as Hstrip.
    { unfold data. rewrite rstrip_nul_padded. by apply rstrip_nul_id. }
    rewrite Hblk, Hstrip.
    destruct (decide (text = [])) as [?|_]; [done|].
    rewrite Hloads. simpl. rewrite mapM_from_dict. done.
Qed.

Lemma save_then_load_restores_table_witness :
  let s := CPython.created in
  let table := [("a.txt"%string, CPython.fresh_inode "a.txt")] in
  let R : Runtime := {|
    json_dumps := @json_dumps CPython.runtime;
    json_loads text :=
      if decide (text = @json_dumps CPython.runtime (table_json table))
      then Some (table_json table) else None;
    set_range := Py.range;
    set_range_perm a b := reflexivity (Py.range a b) |} in
  FileSystem.wf s ∧ in_range (disk s) 1 = true ∧
  inodes s = table ∧
  @json_loads R (@json_dumps R (table_json (inodes s)))
    = Some (table_json (inodes s)) ∧
  ∃ s', @save_inode_table R s = (Ok tt, s') ∧
        inodes (set_inodes [] s') = [] ∧
        @load_inode_table R (set_inodes [] s') = (Ok tt, s') ∧
        inodes s' = table.
Proof.
  intros s table R.
  assert (FileSystem.wf s) as Hwf by by_evaluation.
  assert (in_range (disk s) 1 = true) as Hr by (vm_compute; reflexivity).
  assert (inodes s = table) as Htable by (vm_compute; reflexivity).
  assert (@json_loads R (@json_dumps R (table_json (inodes s)))
          = Some (table_json (inodes s))) as Hloads by (vm_compute; reflexivity).
  split; [exact Hwf|]. split; [exact Hr|]. split; [exact Htable|].
  split; [exact Hloads|].
  set (text := @json_dumps R (table_json (inodes s))) in *.
  assert (1 < block_size (disk s)) as HB by by_evaluation.
  assert (Z.of_nat (length text) ≤ block_size (disk s)) as Hfit by by_evaluation.
  assert (text ≠ []) as Hne by by_evaluation.
  assert (last text ≠ Some x00) as Hlast by (vm_compute; discriminate).
  destruct (@save_then_load_restores_table R s Hwf Hr HB Hfit Hne Hlast Hloads)
    as (s' & Hsave & Hino & Hload).
  exists s'. split; [exact Hsave|]. split; [reflexivity|].
  split; [exact (Hload [])|]. rewrite Hino. exact Htable.
Defined.

(** *** Writing a part of a block *)

(** The block [_write_block_portion] rebuilds. *)
Lemma write_block_portion_eq (s : FileSystem.t) physical_block data block_offset :
  VirtualDisk.wf (disk s) → in_range (disk s) physical_block = true →
  0 ≤ block_offset →
  block_offset + Z.of_nat (length data) ≤ block_size (disk s) →
  let old := block (disk s) physical_block in
  let new := take (Z.to_nat block_offset) old ++ data ++
             drop (Z.to_nat block_offset + length data) old in
  length new = Z.to_nat (block_size (disk s)) ∧
  _write_block_portion physical_block data block_offset s =
    (Ok tt, set_disk (stored physical_block new (disk s)) s).
Proof.
  intros Hwf Hp Hoff Hfit old new.
  pose proof (length_block _ _ Hwf Hp) as Hblk. fold old in Hblk.
  assert (length new = Z.to_nat (block_size (disk s))) as Hlen.
  { unfold new. rewrite !length_app, length_take, length_drop. lia. }
  split; [done|].
  unfold _write_block_portion.
  rewrite (bind_ok _ _ _ _ _ (on_disk_read_block s physical_block Hp)).
  fold old. unfold Py.set_slice.
  replace (Z.to_nat (block_offset + Z.of_nat (length data)))
    with (Z.to_nat block_offset + length data)%nat by lia.
  fold new. apply on_disk_eq. by apply write_block_full.
Qed.

(** A write that stays inside one logical block takes one turn of the
    loop of [_write_data_to_blocks], and that turn is
    [_write_block_portion]. *)
Lemma write_data_in_one_block (s : FileSystem.t) data offset m physical_block :
  0 < block_size (disk s) → data ≠ [] →
  m !! (offset `div` block_size (disk s)) = Some physical_block →
  offset `mod` block_size (disk s) + Z.of_nat (length data) ≤ block_size (disk s) →
  _write_data_to_blocks data offset m s =
    _write_block_portion physical_block data (offset `mod` block_size (disk s)) s.
Proof.
  intros HB Hne Hm Hfit. unfold _write_data_to_blocks. rewrite bind_gets.
  change ((block_size ∘ disk) s) with (block_size (disk s)).
  set (B := block_size (disk s)) in *.
  pose proof (Z.mod_pos_bound offset B HB) as Hmod.
  destruct data as [|b data']; [done|].
  set (data := b :: data') in *.
  change (length data) with (S (length data')) at 1.
  rewrite (write_loop_step _ data m B offset 0 s physical_block);
    [|unfold data; simpl; lia|lia|done].
  unfold _write_block_portion, bind.
  destruct (on_disk (read_block physical_block) s) as [[current_block|e] s1]; [|done].
  rewrite Z.min_r by lia. rewrite Z.sub_0_r, !Z.add_0_l.
  assert (Py.slice data 0 (Z.of_nat (length data)) = data) as ->.
  { unfold Py.slice. rewrite Z.sub_0_r, Nat2Z.id. simpl (Z.to_nat 0).
    rewrite drop_0. by apply take_ge. }
  destruct (on_disk (write_block physical_block _) s1) as [[[]|e] s2]; [|done].
  apply write_loop_done. lia.
Qed.

(** X16: on a well-formed device, [_write_block_portion] with data that
    ends inside the block succeeds and works in place: the block keeps
    its bytes before [block_offset] and after the data, holds the data
    between them, and no other block, nor anything but the image,
    changes. *)
Theorem write_block_portion_in_place (s : FileSystem.t) physical_block data block_offset :
  VirtualDisk.wf (disk s) → in_range (disk s) physical_block = true →
  0 ≤ block_offset →
  block_offset + Z.of_nat (length data) ≤ block_size (disk s) →
  ∃ s',
    _write_block_portion physical_block data block_offset s = (Ok tt, s') ∧
    image_only s s' ∧
    block (disk s') physical_block =
      take (Z.to_nat block_offset) (block (disk s) physical_block) ++ data ++
      drop (Z.to_nat block_offset + length data) (block (disk s) physical_block) ∧
    ∀ n, in_range (disk s) n = true → n ≠ physical_block →
         block (disk s') n = block (disk s) n.
Proof.
  intros Hwf Hp Hoff Hfit.
  destruct (write_block_portion_eq s physical_block data block_offset Hwf Hp Hoff Hfit)
    as [Hlen Hw].
  eexists. split; [exact Hw|]. split; [done|]. split.
  - simpl. by apply block_stored_eq.
  - intros n Hn Hne. simpl. by apply block_stored_ne.
Qed.

Lemma write_block_portion_in_place_witness :
  let s := CPython.blank in
  let data := String.list_byte_of_string "abc" in
  VirtualDisk.wf (disk s) ∧ in_range (disk s) 5 = true ∧
  ∃ s', _write_block_portion 5 data 4093 s = (Ok tt, s') ∧
        drop 4092 (block (disk s') 5) = x00 :: data.
Proof.
  intros s data.
  assert (VirtualDisk.wf (disk s)) as Hwf by by_evaluation.
  assert (in_range (disk s) 5 = true) as Hp by (vm_compute; reflexivity).
  split; [exact Hwf|]. split; [exact Hp|].
  destruct (write_block_portion_in_place s 5 data 4093 Hwf Hp)
    as (s' & Hw & _ & Hblk & _); [lia|by_evaluation|].
  exists s'. split; [exact Hw|]. rewrite Hblk. vm_compute. reflexivity.
Defined.

(** X17: data that would run past the end of the block is neither cut
    nor carried into the next block: the rebuilt block is longer than a
    block, [write_block] raises [ValueError] for it, and nothing is
    written. *)
Theorem write_block_portion_rejects_overflow (s : FileSystem.t)
    physical_block data block_offset :
  VirtualDisk.wf (disk s) → in_range (disk s) physical_block = true →
  0 ≤ block_offset → data ≠ [] →
  block_size (disk s) < block_offset + Z.of_nat (length data) →
  _write_block_portion physical_block data block_offset s =
    (Raise (ValueError (Oversized
       (block_offset `min` block_size (disk s) + Z.of_nat (length data)))), s).
Proof.
  intros Hwf Hp Hoff Hne Hover. pose proof Hwf as (HB & _).
  pose proof (length_block _ _ Hwf Hp) as Hblk.
  assert (0 < length data)%nat as Hpos by (destruct data; [done|simpl; lia]).
  unfold _write_block_portion.
  rewrite (bind_ok _ _ _ _ _ (on_disk_read_block s physical_block Hp)).
  set (new := Py.set_slice _ _ _ _).
  assert (Z.of_nat (length new) =
          block_offset `min` block_size (disk s) + Z.of_nat (length data)) as Hlen.
  { unfold new, Py.set_slice. rewrite !length_app, length_take, length_drop. lia. }
  rewrite <- Hlen.
  erewrite on_disk_eq by (apply write_block_oversized; [done|lia]).
  by rewrite set_disk_id.
Qed.

Lemma write_block_portion_rejects_overflow_witness :
  let s := CPython.blank in
  let data := String.list_byte_of_string "abc" in
  VirtualDisk.wf (disk s) ∧ in_range (disk s) 5 = true ∧
  fst (_write_block_portion 5 data 4094 s) = Raise (ValueError (Oversized 4097)).
Proof.
  intros s data.
  assert (VirtualDisk.wf (disk s)) as Hwf by by_evaluation.
  assert (in_range (disk s) 5 = true) as Hp by (vm_compute; reflexivity).
  split; [exact Hwf|]. split; [exact Hp|].
  rewrite (write_block_portion_rejects_overflow s 5 data 4094 Hwf Hp);
    [reflexivity|lia|discriminate|by_evaluation].
Defined.

(** *** Overwriting inside a file *)

(** X18: a [write_file] that returns [True] for data lying inside one
    logical block that the file already has rewrites that block in
    place and no other: of the data blocks of the device (all but
    blocks 0 and 1), block [p], the file's block at that position, keeps
    its bytes before and after the data and holds the data between them,
    and every other block, those allocated by the same call included,
    has the content it had. *)
Theorem overwrite_changes_one_block `{Runtime} (s s' : FileSystem.t)
    name data offset inode p :
  FileSystem.wf s →
  Dict.get (inodes s) name = Some inode →
  0 ≤ offset → data ≠ [] →
  offset `mod` block_size (disk s) + Z.of_nat (length data) ≤ block_size (disk s) →
  Inode.blocks inode !! Z.to_nat (offset `div` block_size (disk s)) = Some p →
  in_range (disk s) p = true →
  write_file name data offset s = (Ok true, s') →
  ∀ n, in_range (disk s) n = true → n ≠ 0 → n ≠ 1 →
    block (disk s') n =
      if decide (n = p) then
        let old := block (disk s) p in
        let block_offset := Z.to_nat (offset `mod` block_size (disk s)) in
        take block_offset old ++ data ++ drop (block_offset + length data) old
      else block (disk s) n.
Proof.
  intros [Hwf Hitb] Hget Hoff Hne Hfit Hp Hrp Hwrite n Hn Hn0 Hn1.
  pose proof Hwf as (HB & _).
  destruct (write_file_true_inv _ _ _ _ _ _ Hget Hwrite)
    as (ls & m & sa & sb & _ & Halloc & Hwr & (Hgb & Hitbb & _) & Hsave).
  destruct (allocate_missing_inv _ _ _ _ _ Hwf Halloc)
    as (Hwfa & _ & _ & Hga & Hblka & _ & _ & Hold & _).
  pose proof (geometry_block_size _ _ Hga) as HBa.
  pose proof (Z.div_pos offset _ Hoff HB) as Hlb.
  pose proof (Z.mod_pos_bound offset _ HB) as Hbo.
  assert (m !! (offset `div` block_size (disk sa)) = Some p) as Hm.
  { rewrite HBa. apply Hold. rewrite lookup_map_seqZ_0 by done. exact Hp. }
  assert (in_range (disk sa) p = true) as Hrpa
    by by rewrite (geometry_in_range _ _ _ Hga).
  rewrite (write_data_in_one_block sa data offset m p) in Hwr;
    [|by rewrite HBa|done|done|by rewrite HBa].
  destruct (write_block_portion_eq sa p data (offset `mod` block_size (disk sa)))
    as [Hlen Hw]; [done|done|rewrite HBa; lia|rewrite HBa; lia|].
  cbv zeta in Hlen, Hw. rewrite Hw in Hwr. injection Hwr as <-.
  set (new := take _ _ ++ data ++ drop _ _) in *.
  set (sb := set_disk (stored p new (disk sa)) sa) in *.
  set (s2 := set_inodes _ sb) in Hsave.
  assert (FileSystem.wf s2) as Hwf2.
  { split; [by apply stored_wf|]. by rewrite <- Hitb. }
  apply save_inode_table_inv in Hsave as (Hr1 & _ & data1 & Hdata1 & ->); [|done].
  destruct (after_save_effect data1 s2 Hwf2 Hr1 Hdata1) as (_ & _ & _ & _ & Hblk2).
  cbv zeta in Hblk2. rewrite Hblk2; [|by rewrite (geometry_in_range _ _ _ Hgb)|done|done].
  change (disk s2) with (stored p new (disk sa)).
  assert (in_range (disk sa) n = true) as Hna
    by by rewrite (geometry_in_range _ _ _ Hga).
  destruct (decide (n = p)) as [->|Hnp].
  - rewrite block_stored_eq by done. unfold new.
    rewrite HBa, (Hblka p Hrp Hn0). done.
  - rewrite block_stored_ne by done. by apply Hblka.
Qed.

Lemma overwrite_changes_one_block_witness :
  let s := CPython.written 0 in
  let inode := Inode.set_size 1 (Inode.set_blocks [2; 3] (CPython.fresh_inode "a.txt")) in
  let data := String.list_byte_of_string "abc" in
  let s' := CPython.after (write_file "a.txt" data 2) s in
  FileSystem.wf s ∧
  Dict.get (inodes s) "a.txt" = Some inode ∧
  fst (write_file "a.txt" data 2 s) = Ok true ∧
  take 6 (block (disk s') 2) = x41 :: x00 :: data ++ [x00].
Proof.
  intros s inode data s'.
  assert (FileSystem.wf s) as Hwf by by_evaluation.
  assert (Dict.get (inodes s) "a.txt" = Some inode) as Hget by (vm_compute; reflexivity).
  assert (fst (write_file "a.txt" data 2 s) = Ok true) as Hw by (vm_compute; reflexivity).
  split; [exact Hwf|]. split; [exact Hget|]. split; [exact Hw|].
  rewrite (overwrite_changes_one_block s s' "a.txt" data 2 inode 2 Hwf Hget);
    [vm_compute; reflexivity|lia|discriminate|by_evaluation|vm_compute; reflexivity
    |vm_compute; reflexivity|exact (run_eq _ _ _ Hw)|vm_compute; reflexivity|lia|lia].
Defined.
